(** * Library catalog service: the in-memory store and its request handlers

    A shallow embedding of the storage module (the four entity tables and
    their find / add / update / delete functions), of the request handlers
    of the four controllers (validation, id generation, response) and of
    the sample data, followed by the properties of the specification
    stated over them.

    Conventions.
    - The four module-level arrays are one [Store] record; every function
      that reads or writes them takes the store and returns the new one.
    - A value that comes out of a JSON request body is a [JsVal]; the
      handlers never check field types, so stored rows keep [JsVal] fields.
    - [Math.random()] is the environment's: the handlers that create a row
      take the base-36 rendering of the draw as an argument. *)

From stdpp Require Import base option list strings gmap.

Local Open Scope string_scope.
Local Open Scope list_scope.
Set Warnings "-register-all".

(** ** JavaScript values *)

(** A JS number is kept abstract: the code only tests its truthiness
    (false for 0, -0 and NaN) and prints it. *)
Record JsNumber := { num_falsy : bool; num_text : string }.

Inductive JsVal :=
| JUndefined
| JNull
| JBool (b : bool)
| JNum (n : JsNumber)
| JStr (s : string)
| JArr (elems : list JsVal)
| JObj (props : list (string * JsVal)).

(** [!v] is [negb (truthy v)]. *)
Definition truthy (v : JsVal) : bool :=
  match v with
  | JUndefined | JNull => false
  | JBool b => b
  | JNum n => negb (num_falsy n)
  | JStr s => negb (String.eqb s "")
  | JArr _ | JObj _ => true
  end.

(** [Array.isArray(v) && v.length !== 0], the negation of the handlers'
    [!Array.isArray(v) || v.length === 0]. *)
Definition nonEmptyArray (v : JsVal) : bool :=
  match v with
  | JArr (_ :: _) => true
  | _ => false
  end.

(** The items of an array value (the handlers only iterate after the
    [Array.isArray] test). *)
Definition items (v : JsVal) : list JsVal :=
  match v with
  | JArr l => l
  | _ => []
  end.

(** [String(v)]; [None] when the conversion throws a TypeError. An
    object is converted through its [toString] property: in an object
    parsed from JSON that has a key [toString] of its own the property
    holds a value that cannot be called, [valueOf] gives the object back,
    and the conversion throws; every other parsed object prints as
    [[object Object]]. [Array.prototype.toString] joins on a comma and
    prints [undefined] and [null] items as the empty string. *)
Fixpoint toString (v : JsVal) : option string :=
  match v with
  | JUndefined => Some "undefined"
  | JNull => Some "null"
  | JBool true => Some "true"
  | JBool false => Some "false"
  | JNum n => Some (num_text n)
  | JStr s => Some s
  | JArr l =>
      String.concat "," <$>
        (fix texts (l : list JsVal) : option (list string) :=
           match l with
           | [] => Some []
           | x :: l' =>
               match match x with
                     | JUndefined | JNull => Some ""
                     | _ => toString x
                     end with
               | Some text =>
                   match texts l' with
                   | Some rest => Some (text :: rest)
                   | None => None
                   end
               | None => None
               end
           end) l
  | JObj props =>
      if bool_decide ("toString" ∈ props.*1) then None
      else Some "[object Object]"
  end.

(** The text of an item in [join]. *)
Definition itemText (x : JsVal) : option string :=
  match x with
  | JUndefined | JNull => Some ""
  | _ => toString x
  end.

(** [l.join(sep)]; [None] when converting an item throws. *)
Definition join (sep : string) (l : list JsVal) : option string :=
  String.concat sep <$> mapM itemText l.

(** [v === s] for a string [s]: strict equality never converts. *)
Definition strictEq (v : JsVal) (s : string) : Prop := v = JStr s.

#[global] Instance strictEq_dec v s : Decision (strictEq v s).
Proof.
  unfold strictEq. destruct v as [| | |?|t| |]; try (right; discriminate).
  destruct (decide (t = s)) as [->|Hne]; [left; reflexivity|].
  right; intros [= ?]; contradiction.
Defined.

(** [list.includes(v)] for a list of strings (SameValueZero on a string
    is string equality). *)
Definition includes (l : list string) (v : JsVal) : bool :=
  match v with
  | JStr s => bool_decide (s ∈ l)
  | _ => false
  end.

(** ** The models ([src/models]) *)

Record Author := {
  a_id : string;
  firstName : JsVal;
  lastName : JsVal;
  birthDate : JsVal;
  deathDate : JsVal
}.

Record Genre := {
  g_id : string;
  name : JsVal
}.

Record BookCopy := {
  c_id : string;
  bookId : JsVal;
  imprint : JsVal;
  status : JsVal;
  dueBackDate : JsVal
}.

Record Book := {
  b_id : string;
  title : JsVal;
  authorIds : JsVal;
  genreIds : JsVal;
  isbn : JsVal;
  summary : JsVal
}.

(** [Partial<T>]: [None] is a key that the object does not have, [Some v]
    a key that it has (with value [v], possibly [JUndefined]). *)
Record PartialAuthor := {
  pa_id : option string;
  pa_firstName : option JsVal;
  pa_lastName : option JsVal;
  pa_birthDate : option JsVal;
  pa_deathDate : option JsVal
}.

Record PartialGenre := {
  pg_id : option string;
  pg_name : option JsVal
}.

Record PartialBookCopy := {
  pc_id : option string;
  pc_bookId : option JsVal;
  pc_imprint : option JsVal;
  pc_status : option JsVal;
  pc_dueBackDate : option JsVal
}.

Record PartialBook := {
  pb_id : option string;
  pb_title : option JsVal;
  pb_authorIds : option JsVal;
  pb_genreIds : option JsVal;
  pb_isbn : option JsVal;
  pb_summary : option JsVal
}.

(** [{ ...row, ...partial }]: every key of [partial] overrides. *)
Definition spreadAuthor (a : Author) (p : PartialAuthor) : Author :=
  {| a_id := default (a_id a) (pa_id p);
     firstName := default (firstName a) (pa_firstName p);
     lastName := default (lastName a) (pa_lastName p);
     birthDate := default (birthDate a) (pa_birthDate p);
     deathDate := default (deathDate a) (pa_deathDate p) |}.

Definition spreadGenre (g : Genre) (p : PartialGenre) : Genre :=
  {| g_id := default (g_id g) (pg_id p);
     name := default (name g) (pg_name p) |}.

Definition spreadBookCopy (c : BookCopy) (p : PartialBookCopy) : BookCopy :=
  {| c_id := default (c_id c) (pc_id p);
     bookId := default (bookId c) (pc_bookId p);
     imprint := default (imprint c) (pc_imprint p);
     status := default (status c) (pc_status p);
     dueBackDate := default (dueBackDate c) (pc_dueBackDate p) |}.

Definition spreadBook (b : Book) (p : PartialBook) : Book :=
  {| b_id := default (b_id b) (pb_id p);
     title := default (title b) (pb_title p);
     authorIds := default (authorIds b) (pb_authorIds p);
     genreIds := default (genreIds b) (pb_genreIds p);
     isbn := default (isbn b) (pb_isbn p);
     summary := default (summary b) (pb_summary p) |}.

(** ** Storage ([src/data/storage]) *)

Record Store := {
  books : list Book;
  authors : list Author;
  genres : list Genre;
  bookCopies : list BookCopy
}.

Definition emptyStore : Store :=
  {| books := []; authors := []; genres := []; bookCopies := [] |}.

Definition set_books (l : list Book) (s : Store) : Store :=
  {| books := l; authors := authors s; genres := genres s;
     bookCopies := bookCopies s |}.
Definition set_authors (l : list Author) (s : Store) : Store :=
  {| books := books s; authors := l; genres := genres s;
     bookCopies := bookCopies s |}.
Definition set_genres (l : list Genre) (s : Store) : Store :=
  {| books := books s; authors := authors s; genres := l;
     bookCopies := bookCopies s |}.
Definition set_bookCopies (l : list BookCopy) (s : Store) : Store :=
  {| books := books s; authors := authors s; genres := genres s;
     bookCopies := l |}.

(** [Math.random().toString(36).substr(2, 9)]; [rnd] is the rendering
    [Math.random().toString(36)], which is ["0"] for the draw 0 and
    ["0."] followed by base-36 digits otherwise. *)
Definition generateId (rnd : string) : string := String.substring 2 9 rnd.

Definition findBookById (id : JsVal) (s : Store) : option Book :=
  snd <$> list_find (λ book, strictEq id (b_id book)) (books s).

Definition findAuthorById (id : JsVal) (s : Store) : option Author :=
  snd <$> list_find (λ author, strictEq id (a_id author)) (authors s).

Definition findGenreById (id : JsVal) (s : Store) : option Genre :=
  snd <$> list_find (λ genre, strictEq id (g_id genre)) (genres s).

Definition findBookCopyById (id : JsVal) (s : Store) : option BookCopy :=
  snd <$> list_find (λ copy, strictEq id (c_id copy)) (bookCopies s).

Definition addBook (book : Book) (s : Store) : Store :=
  set_books (books s ++ [book]) s.

Definition addAuthor (author : Author) (s : Store) : Store :=
  set_authors (authors s ++ [author]) s.

Definition addGenre (genre : Genre) (s : Store) : Store :=
  set_genres (genres s ++ [genre]) s.

Definition addBookCopy (bookCopy : BookCopy) (s : Store) : Store :=
  set_bookCopies (bookCopies s ++ [bookCopy]) s.

(** [findIndex] returning -1 is [list_find] returning [None]. *)
Definition updateBook (id : string) (updatedBook : PartialBook) (s : Store)
  : option Book * Store :=
  match list_find (λ book, b_id book = id) (books s) with
  | None => (None, s)
  | Some (index, old) =>
      let new := spreadBook old updatedBook in
      (Some new, set_books (<[index := new]> (books s)) s)
  end.

Definition updateAuthor (id : string) (updatedAuthor : PartialAuthor)
  (s : Store) : option Author * Store :=
  match list_find (λ author, a_id author = id) (authors s) with
  | None => (None, s)
  | Some (index, old) =>
      let new := spreadAuthor old updatedAuthor in
      (Some new, set_authors (<[index := new]> (authors s)) s)
  end.

Definition updateGenre (id : string) (updatedGenre : PartialGenre)
  (s : Store) : option Genre * Store :=
  match list_find (λ genre, g_id genre = id) (genres s) with
  | None => (None, s)
  | Some (index, old) =>
      let new := spreadGenre old updatedGenre in
      (Some new, set_genres (<[index := new]> (genres s)) s)
  end.

Definition updateBookCopy (id : string) (updatedBookCopy : PartialBookCopy)
  (s : Store) : option BookCopy * Store :=
  match list_find (λ copy, c_id copy = id) (bookCopies s) with
  | None => (None, s)
  | Some (index, old) =>
      let new := spreadBookCopy old updatedBookCopy in
      (Some new, set_bookCopies (<[index := new]> (bookCopies s)) s)
  end.

(** [bookCopies = bookCopies.filter(...)] then [books.splice(index, 1)]. *)
Definition deleteBook (id : string) (s : Store) : bool * Store :=
  match list_find (λ book, b_id book = id) (books s) with
  | None => (false, s)
  | Some (index, _) =>
      let s1 :=
        set_bookCopies
          (filter (λ copy, ¬ strictEq (bookId copy) id) (bookCopies s)) s in
      (true, set_books (delete index (books s1)) s1)
  end.

Definition deleteAuthor (id : string) (s : Store) : bool * Store :=
  match list_find (λ author, a_id author = id) (authors s) with
  | None => (false, s)
  | Some (index, _) => (true, set_authors (delete index (authors s)) s)
  end.

Definition deleteGenre (id : string) (s : Store) : bool * Store :=
  match list_find (λ genre, g_id genre = id) (genres s) with
  | None => (false, s)
  | Some (index, _) => (true, set_genres (delete index (genres s)) s)
  end.

Definition deleteBookCopy (id : string) (s : Store) : bool * Store :=
  match list_find (λ copy, c_id copy = id) (bookCopies s) with
  | None => (false, s)
  | Some (index, _) => (true, set_bookCopies (delete index (bookCopies s)) s)
  end.

(** ** Sample data ([src/data/sampleData]) *)

Definition initializeData (s : Store) : Store :=
  let author1 :=
    {| a_id := "auth1"; firstName := JStr "Isaac"; lastName := JStr "Asimov";
       birthDate := JStr "1920-01-02"; deathDate := JStr "1992-04-06" |} in
  let author2 :=
    {| a_id := "auth2"; firstName := JStr "Ursula";
       lastName := JStr "K. Le Guin"; birthDate := JStr "1929-10-21";
       deathDate := JStr "2018-01-22" |} in
  let s := addAuthor author1 s in
  let s := addAuthor author2 s in
  let genre1 := {| g_id := "gen1"; name := JStr "Science Fiction" |} in
  let genre2 := {| g_id := "gen2"; name := JStr "Fantasy" |} in
  let s := addGenre genre1 s in
  let s := addGenre genre2 s in
  let book1 :=
    {| b_id := "book1"; title := JStr "Foundation";
       authorIds := JArr [JStr "auth1"]; genreIds := JArr [JStr "gen1"];
       isbn := JStr "978-0-553-29335-4";
       summary :=
         JStr "The first book in the Foundation series by Isaac Asimov." |} in
  let s := addBook book1 s in
  let copy1 :=
    {| c_id := "copy1"; bookId := JStr "book1";
       imprint := JStr "First Edition 1951"; status := JStr "available";
       dueBackDate := JUndefined |} in
  addBookCopy copy1 s.

(** ** Requests and responses *)

(** [req.params.id], [req.query] and [req.body] (a JSON object, parsed by
    [express.json()]). A key that the object does not have reads as
    [undefined]. *)
Record Request := {
  params_id : string;
  query : gmap string JsVal;
  body : gmap string JsVal
}.

Definition field (o : gmap string JsVal) (k : string) : JsVal :=
  default JUndefined (o !! k).

(** What a handler sends: [res.status(code).json(payload)] (code 200 for a
    bare [res.json]), [res.status(code).json({ error, message })], or
    [res.status(code).send()]. [Throws code] is a handler that sends
    nothing: after [res.status(code)], evaluating the argument of [.json]
    threw a TypeError, which leaves the handler. *)
Inductive Response (R : Type) :=
| Json (code : nat) (payload : R)
| Error (code : nat) (error message : string)
| Send (code : nat)
| Throws (code : nat).
Arguments Json {R} code payload.
Arguments Error {R} code error message.
Arguments Send {R} code.
Arguments Throws {R} code.

(** ** The author handlers ([src/controllers/authorsControllers.ts]) *)

Definition getAllAuthors (s : Store) : Response (list Author) :=
  Json 200 (authors s).

Definition getAuthorById (req : Request) (s : Store) : Response Author :=
  match findAuthorById (JStr (params_id req)) s with
  | None => Error 404 "Not Found" "Author not found"
  | Some author => Json 200 author
  end.

Definition createAuthor (rnd : string) (req : Request) (s : Store)
  : Response Author * Store :=
  let firstName' := field (body req) "firstName" in
  let lastName' := field (body req) "lastName" in
  let birthDate' := field (body req) "birthDate" in
  let deathDate' := field (body req) "deathDate" in
  if negb (truthy firstName') || negb (truthy birthDate') then
    (Error 400 "Bad Request" "firstName and birthDate are required", s)
  else
    let newAuthor :=
      {| a_id := generateId rnd; firstName := firstName';
         lastName := lastName'; birthDate := birthDate';
         deathDate := deathDate' |} in
    (Json 201 newAuthor, addAuthor newAuthor s).

Definition updateAuthorById (req : Request) (s : Store)
  : Response Author * Store :=
  let firstName' := field (body req) "firstName" in
  let lastName' := field (body req) "lastName" in
  let birthDate' := field (body req) "birthDate" in
  let deathDate' := field (body req) "deathDate" in
  if negb (truthy firstName') || negb (truthy birthDate') then
    (Error 400 "Bad Request" "firstName and birthDate are required", s)
  else
    match updateAuthor (params_id req)
            {| pa_id := None; pa_firstName := Some firstName';
               pa_lastName := Some lastName';
               pa_birthDate := Some birthDate';
               pa_deathDate := Some deathDate' |} s with
    | (None, s') => (Error 404 "Not Found" "Author not found", s')
    | (Some updatedAuthor, s') => (Json 200 updatedAuthor, s')
    end.

Definition deleteAuthorById (req : Request) (s : Store)
  : Response Empty_set * Store :=
  match deleteAuthor (params_id req) s with
  | (false, s') => (Error 404 "Not Found" "Author not found", s')
  | (true, s') => (Send 204, s')
  end.

(** ** The genre handlers ([src/controllers/genresControllers.ts]) *)

Definition getAllGenres (s : Store) : Response (list Genre) :=
  Json 200 (genres s).

Definition getGenreById (req : Request) (s : Store) : Response Genre :=
  match findGenreById (JStr (params_id req)) s with
  | None => Error 404 "Not Found" "Genre not found"
  | Some genre => Json 200 genre
  end.

Definition createGenre (rnd : string) (req : Request) (s : Store)
  : Response Genre * Store :=
  let name' := field (body req) "name" in
  if negb (truthy name') then
    (Error 400 "Bad Request" "name is required", s)
  else
    let newGenre := {| g_id := generateId rnd; name := name' |} in
    (Json 201 newGenre, addGenre newGenre s).

Definition updateGenreById (req : Request) (s : Store)
  : Response Genre * Store :=
  let name' := field (body req) "name" in
  if negb (truthy name') then
    (Error 400 "Bad Request" "name is required", s)
  else
    match updateGenre (params_id req)
            {| pg_id := None; pg_name := Some name' |} s with
    | (None, s') => (Error 404 "Not Found" "Genre not found", s')
    | (Some updatedGenre, s') => (Json 200 updatedGenre, s')
    end.

Definition deleteGenreById (req : Request) (s : Store)
  : Response Empty_set * Store :=
  match deleteGenre (params_id req) s with
  | (false, s') => (Error 404 "Not Found" "Genre not found", s')
  | (true, s') => (Send 204, s')
  end.

(** ** The book handlers ([src/controllers/booksControllers]) *)

Definition getAllBooks (s : Store) : Response (list Book) :=
  Json 200 (books s).

Definition getBookById (req : Request) (s : Store) : Response Book :=
  match findBookById (JStr (params_id req)) s with
  | None => Error 404 "Not Found" "Book not found"
  | Some book => Json 200 book
  end.

Definition createBook (rnd : string) (req : Request) (s : Store)
  : Response Book * Store :=
  let title' := field (body req) "title" in
  let authorIds' := field (body req) "authorIds" in
  let genreIds' := field (body req) "genreIds" in
  let isbn' := field (body req) "isbn" in
  let summary' := field (body req) "summary" in
  if negb (truthy title') || negb (truthy authorIds')
     || negb (truthy genreIds') || negb (truthy isbn')
     || negb (truthy summary') then
    (Error 400 "Bad Request"
       "title, authorIds, genreIds, isbn, and summary are required", s)
  else if negb (nonEmptyArray authorIds') then
    (Error 400 "Bad Request" "authorIds must be a non-empty array", s)
  else if negb (nonEmptyArray genreIds') then
    (Error 400 "Bad Request" "genreIds must be a non-empty array", s)
  else
    let invalidAuthorIds :=
      filter (λ id, findAuthorById id s = None) (items authorIds') in
    if decide (0 < length invalidAuthorIds) then
      match join ", " invalidAuthorIds with
      | Some text =>
          (Error 400 "Bad Request" ("Invalid author IDs: " +:+ text), s)
      | None => (Throws 400, s)
      end
    else
      let invalidGenreIds :=
        filter (λ id, findGenreById id s = None) (items genreIds') in
      if decide (0 < length invalidGenreIds) then
        match join ", " invalidGenreIds with
        | Some text =>
            (Error 400 "Bad Request" ("Invalid genre IDs: " +:+ text), s)
        | None => (Throws 400, s)
        end
      else
        let newBook :=
          {| b_id := generateId rnd; title := title';
             authorIds := authorIds'; genreIds := genreIds';
             isbn := isbn'; summary := summary' |} in
        (Json 201 newBook, addBook newBook s).

Definition updateBookById (req : Request) (s : Store)
  : Response Book * Store :=
  let title' := field (body req) "title" in
  let authorIds' := field (body req) "authorIds" in
  let genreIds' := field (body req) "genreIds" in
  let isbn' := field (body req) "isbn" in
  let summary' := field (body req) "summary" in
  if negb (truthy title') || negb (truthy authorIds')
     || negb (truthy genreIds') || negb (truthy isbn')
     || negb (truthy summary') then
    (Error 400 "Bad Request"
       "title, authorIds, genreIds, isbn, and summary are required", s)
  else if negb (nonEmptyArray authorIds') then
    (Error 400 "Bad Request" "authorIds must be a non-empty array", s)
  else if negb (nonEmptyArray genreIds') then
    (Error 400 "Bad Request" "genreIds must be a non-empty array", s)
  else
    let invalidAuthorIds :=
      filter (λ id, findAuthorById id s = None) (items authorIds') in
    if decide (0 < length invalidAuthorIds) then
      match join ", " invalidAuthorIds with
      | Some text =>
          (Error 400 "Bad Request" ("Invalid author IDs: " +:+ text), s)
      | None => (Throws 400, s)
      end
    else
      let invalidGenreIds :=
        filter (λ id, findGenreById id s = None) (items genreIds') in
      if decide (0 < length invalidGenreIds) then
        match join ", " invalidGenreIds with
        | Some text =>
            (Error 400 "Bad Request" ("Invalid genre IDs: " +:+ text), s)
        | None => (Throws 400, s)
        end
      else
        match updateBook (params_id req)
                {| pb_id := None; pb_title := Some title';
                   pb_authorIds := Some authorIds';
                   pb_genreIds := Some genreIds';
                   pb_isbn := Some isbn';
                   pb_summary := Some summary' |} s with
        | (None, s') => (Error 404 "Not Found" "Book not found", s')
        | (Some updatedBook, s') => (Json 200 updatedBook, s')
        end.

Definition deleteBookById (req : Request) (s : Store)
  : Response Empty_set * Store :=
  match deleteBook (params_id req) s with
  | (false, s') => (Error 404 "Not Found" "Book not found", s')
  | (true, s') => (Send 204, s')
  end.

(** ** The book copy handlers *)

(** [v === q] for a value [q] of [req.query]: a string compares by
    content; the other values a query holds (arrays and objects) are fresh
    references, identical to no stored value. *)
Definition strictEqQuery (v q : JsVal) : Prop :=
  match q with
  | JStr s => strictEq v s
  | _ => False
  end.

#[global] Instance strictEqQuery_dec v q : Decision (strictEqQuery v q).
Proof. destruct q; simpl; apply _. Defined.

Definition getAllBookCopies (req : Request) (s : Store)
  : Response (list BookCopy) :=
  let filteredCopies := bookCopies s in
  let filteredCopies :=
    if truthy (field (query req) "bookId") then
      filter (λ copy, strictEqQuery (bookId copy) (field (query req) "bookId"))
        filteredCopies
    else filteredCopies in
  let filteredCopies :=
    if truthy (field (query req) "status") then
      filter (λ copy, strictEqQuery (status copy) (field (query req) "status"))
        filteredCopies
    else filteredCopies in
  Json 200 filteredCopies.

Definition getBookCopyById (req : Request) (s : Store) : Response BookCopy :=
  match findBookCopyById (JStr (params_id req)) s with
  | None => Error 404 "Not Found" "Book copy not found"
  | Some bookCopy => Json 200 bookCopy
  end.

Definition validStatuses : list string :=
  ["available"; "unavailable"; "can be checkout"; "checked out"].

Definition createBookCopy (rnd : string) (req : Request) (s : Store)
  : Response BookCopy * Store :=
  let bookId' := field (body req) "bookId" in
  let imprint' := field (body req) "imprint" in
  let status' := field (body req) "status" in
  let dueBackDate' := field (body req) "dueBackDate" in
  if negb (truthy bookId') || negb (truthy imprint')
     || negb (truthy status') then
    (Error 400 "Bad Request" "bookId, imprint, and status are required", s)
  else if decide (findBookById bookId' s = None) then
    (Error 400 "Bad Request" "Invalid book ID", s)
  else if negb (includes validStatuses status') then
    (Error 400 "Bad Request"
       ("Invalid status. Must be one of: "
        +:+ String.concat ", " validStatuses), s)
  else
    let newBookCopy :=
      {| c_id := generateId rnd; bookId := bookId'; imprint := imprint';
         status := status'; dueBackDate := dueBackDate' |} in
    (Json 201 newBookCopy, addBookCopy newBookCopy s).

Definition updateBookCopyById (req : Request) (s : Store)
  : Response BookCopy * Store :=
  let bookId' := field (body req) "bookId" in
  let imprint' := field (body req) "imprint" in
  let status' := field (body req) "status" in
  let dueBackDate' := field (body req) "dueBackDate" in
  if negb (truthy bookId') || negb (truthy imprint')
     || negb (truthy status') then
    (Error 400 "Bad Request" "bookId, imprint, and status are required", s)
  else if decide (findBookById bookId' s = None) then
    (Error 400 "Bad Request" "Invalid book ID", s)
  else if negb (includes validStatuses status') then
    (Error 400 "Bad Request"
       ("Invalid status. Must be one of: "
        +:+ String.concat ", " validStatuses), s)
  else
    match updateBookCopy (params_id req)
            {| pc_id := None; pc_bookId := Some bookId';
               pc_imprint := Some imprint'; pc_status := Some status';
               pc_dueBackDate := Some dueBackDate' |} s with
    | (None, s') => (Error 404 "Not Found" "Book copy not found", s')
    | (Some updatedBookCopy, s') => (Json 200 updatedBookCopy, s')
    end.

Definition deleteBookCopyById (req : Request) (s : Store)
  : Response Empty_set * Store :=
  match deleteBookCopy (params_id req) s with
  | (false, s') => (Error 404 "Not Found" "Book copy not found", s')
  | (true, s') => (Send 204, s')
  end.

(** ** The four routers ([src/app], [src/routes])

    [app.use('/authors', authorsRouter)] and its three siblings dispatch
    [POST /], [PUT /:id], [DELETE /:id] and [GET /:id] of each kind to the
    handler of that kind. The payloads of the four kinds are put in one
    type so that a property can be stated once for every kind. *)

Inductive Kind := KAuthor | KGenre | KBook | KCopy.

Inductive Entity :=
| EAuthor (a : Author)
| EGenre (g : Genre)
| EBook (b : Book)
| ECopy (c : BookCopy).

Inductive Partial :=
| PAuthor (p : PartialAuthor)
| PGenre (p : PartialGenre)
| PBook (p : PartialBook)
| PCopy (p : PartialBookCopy).

#[global] Instance Kind_eq_dec : EqDecision Kind.
Proof. solve_decision. Defined.

Definition entityId (e : Entity) : string :=
  match e with
  | EAuthor a => a_id a
  | EGenre g => g_id g
  | EBook b => b_id b
  | ECopy c => c_id c
  end.

Definition partialKind (p : Partial) : Kind :=
  match p with
  | PAuthor _ => KAuthor
  | PGenre _ => KGenre
  | PBook _ => KBook
  | PCopy _ => KCopy
  end.

Definition partialId (p : Partial) : option string :=
  match p with
  | PAuthor p => pa_id p
  | PGenre p => pg_id p
  | PBook p => pb_id p
  | PCopy p => pc_id p
  end.

(** The table of a kind, as the list of its rows in storage order. *)
Definition table (k : Kind) (s : Store) : list Entity :=
  match k with
  | KAuthor => EAuthor <$> authors s
  | KGenre => EGenre <$> genres s
  | KBook => EBook <$> books s
  | KCopy => ECopy <$> bookCopies s
  end.

Definition mapResponse {A B} (f : A → B) (r : Response A) : Response B :=
  match r with
  | Json code payload => Json code (f payload)
  | Error code error message => Error code error message
  | Send code => Send code
  | Throws code => Throws code
  end.

Definition route_get (k : Kind) (req : Request) (s : Store)
  : Response Entity :=
  match k with
  | KAuthor => mapResponse EAuthor (getAuthorById req s)
  | KGenre => mapResponse EGenre (getGenreById req s)
  | KBook => mapResponse EBook (getBookById req s)
  | KCopy => mapResponse ECopy (getBookCopyById req s)
  end.

Definition route_post (k : Kind) (rnd : string) (req : Request) (s : Store)
  : Response Entity * Store :=
  match k with
  | KAuthor =>
      let '(r, s') := createAuthor rnd req s in (mapResponse EAuthor r, s')
  | KGenre =>
      let '(r, s') := createGenre rnd req s in (mapResponse EGenre r, s')
  | KBook =>
      let '(r, s') := createBook rnd req s in (mapResponse EBook r, s')
  | KCopy =>
      let '(r, s') := createBookCopy rnd req s in (mapResponse ECopy r, s')
  end.

Definition route_put (k : Kind) (req : Request) (s : Store)
  : Response Entity * Store :=
  match k with
  | KAuthor =>
      let '(r, s') := updateAuthorById req s in (mapResponse EAuthor r, s')
  | KGenre =>
      let '(r, s') := updateGenreById req s in (mapResponse EGenre r, s')
  | KBook =>
      let '(r, s') := updateBookById req s in (mapResponse EBook r, s')
  | KCopy =>
      let '(r, s') := updateBookCopyById req s in (mapResponse ECopy r, s')
  end.

Definition route_delete (k : Kind) (req : Request) (s : Store)
  : Response Empty_set * Store :=
  match k with
  | KAuthor => deleteAuthorById req s
  | KGenre => deleteGenreById req s
  | KBook => deleteBookById req s
  | KCopy => deleteBookCopyById req s
  end.

(** The storage functions, by kind. *)
Definition storeUpdate (id : string) (p : Partial) (s : Store)
  : option Entity * Store :=
  match p with
  | PAuthor p => let '(r, s') := updateAuthor id p s in (EAuthor <$> r, s')
  | PGenre p => let '(r, s') := updateGenre id p s in (EGenre <$> r, s')
  | PBook p => let '(r, s') := updateBook id p s in (EBook <$> r, s')
  | PCopy p => let '(r, s') := updateBookCopy id p s in (ECopy <$> r, s')
  end.

Definition storeDelete (k : Kind) (id : string) (s : Store) : bool * Store :=
  match k with
  | KAuthor => deleteAuthor id s
  | KGenre => deleteGenre id s
  | KBook => deleteBook id s
  | KCopy => deleteBookCopy id s
  end.

Definition spread (e : Entity) (p : Partial) : Entity :=
  match e, p with
  | EAuthor a, PAuthor p => EAuthor (spreadAuthor a p)
  | EGenre g, PGenre p => EGenre (spreadGenre g p)
  | EBook b, PBook p => EBook (spreadBook b p)
  | ECopy c, PCopy p => ECopy (spreadBookCopy c p)
  | _, _ => e
  end.

(** The index of the first row of a table whose id is [id]
    ([findIndex]). *)
Definition firstIndex (k : Kind) (id : string) (s : Store)
  : option (nat * Entity) :=
  list_find (λ e, entityId e = id) (table k s).

(** Every id occurs once in its table. *)
Definition uniqueIds (s : Store) : Prop :=
  ∀ k, NoDup (entityId <$> table k s).

(** ** The validation rules as the specification words them

    The specification gives, for each kind, a list of checks in order and
    says that the first failing check determines the error. [checks],
    [checkError] and [firstFailure] follow those words. [checkVerdict],
    [firstVerdict] and [validation] add the one thing the words leave
    out: a check on ids builds its message with [join], which can throw.
    The theorems below compare them with the handlers. *)

Inductive Check :=
| RequiredFields   (* every required field is present *)
| AuthorIdsShape   (* authorIds is a non-empty array *)
| GenreIdsShape    (* genreIds is a non-empty array *)
| AuthorsExist     (* every id in authorIds resolves to an Author *)
| GenresExist      (* every id in genreIds resolves to a Genre *)
| BookExists       (* bookId resolves to a Book *)
| StatusValid.     (* status is one of the four values *)

Definition requiredFields (k : Kind) : list string :=
  match k with
  | KAuthor => ["firstName"; "birthDate"]
  | KGenre => ["name"]
  | KBook => ["title"; "authorIds"; "genreIds"; "isbn"; "summary"]
  | KCopy => ["bookId"; "imprint"; "status"]
  end.

Definition requiredMessage (k : Kind) : string :=
  match k with
  | KAuthor => "firstName and birthDate are required"
  | KGenre => "name is required"
  | KBook => "title, authorIds, genreIds, isbn, and summary are required"
  | KCopy => "bookId, imprint, and status are required"
  end.

Definition checks (k : Kind) : list Check :=
  match k with
  | KAuthor | KGenre => [RequiredFields]
  | KBook =>
      [RequiredFields; AuthorIdsShape; GenreIdsShape; AuthorsExist;
       GenresExist]
  | KCopy => [RequiredFields; BookExists; StatusValid]
  end.

(** The ids of an array that do not resolve, all of them, in order. *)
Definition unresolved {R} (lookup : JsVal → option R) (ids : JsVal)
  : list JsVal :=
  filter (λ id, lookup id = None) (items ids).

(** The verdict of a check: it fails with the message that is sent, it
    fails on ids that cannot be printed (there is no message: building
    it throws), or it passes. *)
Inductive Verdict :=
| Fails (message : string)
| FailsUnprinted
| Passes.

(** The verdict of a check that lists the ids [bad]. *)
Definition listing (prefix : string) (bad : list JsVal) : Verdict :=
  match bad with
  | [] => Passes
  | _ =>
      match join ", " bad with
      | Some text => Fails (prefix +:+ text)
      | None => FailsUnprinted
      end
  end.

(** [Some message] when the check fails on the payload [o] with that
    message; [None] when it passes, and for a check on ids also when the
    message cannot be built (see [checkVerdict]). *)
Definition checkError (k : Kind) (o : gmap string JsVal) (s : Store)
  (c : Check) : option string :=
  match c with
  | RequiredFields =>
      if forallb (λ key, truthy (field o key)) (requiredFields k) then None
      else Some (requiredMessage k)
  | AuthorIdsShape =>
      if nonEmptyArray (field o "authorIds") then None
      else Some "authorIds must be a non-empty array"
  | GenreIdsShape =>
      if nonEmptyArray (field o "genreIds") then None
      else Some "genreIds must be a non-empty array"
  | AuthorsExist =>
      match listing "Invalid author IDs: "
              (unresolved (λ id, findAuthorById id s) (field o "authorIds"))
      with
      | Fails message => Some message
      | _ => None
      end
  | GenresExist =>
      match listing "Invalid genre IDs: "
              (unresolved (λ id, findGenreById id s) (field o "genreIds"))
      with
      | Fails message => Some message
      | _ => None
      end
  | BookExists =>
      match findBookById (field o "bookId") s with
      | Some _ => None
      | None => Some "Invalid book ID"
      end
  | StatusValid =>
      if includes validStatuses (field o "status") then None
      else Some
             "Invalid status. Must be one of: available, unavailable, can be checkout, checked out"
  end.

(** The error of the first check of the list that fails. *)
Fixpoint firstFailure (err : Check → option string) (cs : list Check)
  : option string :=
  match cs with
  | [] => None
  | c :: cs' =>
      match err c with
      | Some message => Some message
      | None => firstFailure err cs'
      end
  end.

(** The verdict of a check on the payload [o]. *)
Definition checkVerdict (k : Kind) (o : gmap string JsVal) (s : Store)
  (c : Check) : Verdict :=
  match c with
  | AuthorsExist =>
      listing "Invalid author IDs: "
        (unresolved (λ id, findAuthorById id s) (field o "authorIds"))
  | GenresExist =>
      listing "Invalid genre IDs: "
        (unresolved (λ id, findGenreById id s) (field o "genreIds"))
  | _ =>
      match checkError k o s c with
      | Some message => Fails message
      | None => Passes
      end
  end.

(** The verdict of the first check of the list that does not pass. *)
Fixpoint firstVerdict (verdict : Check → Verdict) (cs : list Check)
  : Verdict :=
  match cs with
  | [] => Passes
  | c :: cs' =>
      match verdict c with
      | Passes => firstVerdict verdict cs'
      | failed => failed
      end
  end.

(** The validation of a payload of a kind. *)
Definition validation (k : Kind) (o : gmap string JsVal) (s : Store)
  : Verdict :=
  firstVerdict (checkVerdict k o s) (checks k).

(** The row that a request body describes: the given id, and for every
    other field the body's value ([undefined] where the body has no such
    key). *)
Definition fromBody (k : Kind) (id : string) (o : gmap string JsVal)
  : Entity :=
  match k with
  | KAuthor =>
      EAuthor {| a_id := id; firstName := field o "firstName";
                 lastName := field o "lastName";
                 birthDate := field o "birthDate";
                 deathDate := field o "deathDate" |}
  | KGenre => EGenre {| g_id := id; name := field o "name" |}
  | KBook =>
      EBook {| b_id := id; title := field o "title";
               authorIds := field o "authorIds";
               genreIds := field o "genreIds"; isbn := field o "isbn";
               summary := field o "summary" |}
  | KCopy =>
      ECopy {| c_id := id; bookId := field o "bookId";
               imprint := field o "imprint"; status := field o "status";
               dueBackDate := field o "dueBackDate" |}
  end.

Definition notFoundMessage (k : Kind) : string :=
  match k with
  | KAuthor => "Author not found"
  | KGenre => "Genre not found"
  | KBook => "Book not found"
  | KCopy => "Book copy not found"
  end.

(** [addAuthor], [addGenre], [addBook], [addBookCopy], by kind. *)
Definition storeAdd (e : Entity) (s : Store) : Store :=
  match e with
  | EAuthor a => addAuthor a s
  | EGenre g => addGenre g s
  | EBook b => addBook b s
  | ECopy c => addBookCopy c s
  end.

(** The object that the update handler of a kind passes to storage: a key
    for every field but [id], with the body's value. *)
Definition bodyPartial (k : Kind) (o : gmap string JsVal) : Partial :=
  match k with
  | KAuthor =>
      PAuthor {| pa_id := None; pa_firstName := Some (field o "firstName");
                 pa_lastName := Some (field o "lastName");
                 pa_birthDate := Some (field o "birthDate");
                 pa_deathDate := Some (field o "deathDate") |}
  | KGenre => PGenre {| pg_id := None; pg_name := Some (field o "name") |}
  | KBook =>
      PBook {| pb_id := None; pb_title := Some (field o "title");
               pb_authorIds := Some (field o "authorIds");
               pb_genreIds := Some (field o "genreIds");
               pb_isbn := Some (field o "isbn");
               pb_summary := Some (field o "summary") |}
  | KCopy =>
      PCopy {| pc_id := None; pc_bookId := Some (field o "bookId");
               pc_imprint := Some (field o "imprint");
               pc_status := Some (field o "status");
               pc_dueBackDate := Some (field o "dueBackDate") |}
  end.

(** ** Runs of the service

    The operations that change the store, and the states they lead to.
    The reading handlers return the store as it is. *)

Inductive Op :=
| Post (k : Kind) (rnd : string) (req : Request)
| Put (k : Kind) (req : Request)
| Delete (k : Kind) (req : Request).

Definition exec (op : Op) (s : Store) : Store :=
  match op with
  | Post k rnd req => (route_post k rnd req s).2
  | Put k req => (route_put k req s).2
  | Delete k req => (route_delete k req s).2
  end.

Inductive reachable (s0 : Store) : Store → Prop :=
| reachable_init : reachable s0 s0
| reachable_step s op : reachable s0 s → reachable s0 (exec op s).

(** A creation that appends a row draws an id that no row of its table
    has yet. *)
Definition freshDraw (op : Op) (s : Store) : Prop :=
  match op with
  | Post k rnd req =>
      validation k (body req) s = Passes →
      generateId rnd ∉ entityId <$> table k s
  | _ => True
  end.

Inductive reachableFresh (s0 : Store) : Store → Prop :=
| reachableFresh_init : reachableFresh s0 s0
| reachableFresh_step s op :
    reachableFresh s0 s → freshDraw op s → reachableFresh s0 (exec op s).

(** The payload of a [Json] response. *)
Definition payloadOf {R} (r : Response R) : option R :=
  match r with
  | Json _ payload => Some payload
  | _ => None
  end.

(** [row[key]]: reading a property of a stored row. *)
Definition entityField (e : Entity) (key : string) : JsVal :=
  match e with
  | EAuthor a =>
      if decide (key = "id") then JStr (a_id a)
      else if decide (key = "firstName") then firstName a
      else if decide (key = "lastName") then lastName a
      else if decide (key = "birthDate") then birthDate a
      else if decide (key = "deathDate") then deathDate a
      else JUndefined
  | EGenre g =>
      if decide (key = "id") then JStr (g_id g)
      else if decide (key = "name") then name g
      else JUndefined
  | EBook b =>
      if decide (key = "id") then JStr (b_id b)
      else if decide (key = "title") then title b
      else if decide (key = "authorIds") then authorIds b
      else if decide (key = "genreIds") then genreIds b
      else if decide (key = "isbn") then isbn b
      else if decide (key = "summary") then summary b
      else JUndefined
  | ECopy c =>
      if decide (key = "id") then JStr (c_id c)
      else if decide (key = "bookId") then bookId c
      else if decide (key = "imprint") then imprint c
      else if decide (key = "status") then status c
      else if decide (key = "dueBackDate") then dueBackDate c
      else JUndefined
  end.

(** The key of a partial object: [None] when the object has no such
    key. *)
Definition partialField (p : Partial) (key : string) : option JsVal :=
  match p with
  | PAuthor p =>
      if decide (key = "id") then JStr <$> pa_id p
      else if decide (key = "firstName") then pa_firstName p
      else if decide (key = "lastName") then pa_lastName p
      else if decide (key = "birthDate") then pa_birthDate p
      else if decide (key = "deathDate") then pa_deathDate p
      else None
  | PGenre p =>
      if decide (key = "id") then JStr <$> pg_id p
      else if decide (key = "name") then pg_name p
      else None
  | PBook p =>
      if decide (key = "id") then JStr <$> pb_id p
      else if decide (key = "title") then pb_title p
      else if decide (key = "authorIds") then pb_authorIds p
      else if decide (key = "genreIds") then pb_genreIds p
      else if decide (key = "isbn") then pb_isbn p
      else if decide (key = "summary") then pb_summary p
      else None
  | PCopy p =>
      if decide (key = "id") then JStr <$> pc_id p
      else if decide (key = "bookId") then pc_bookId p
      else if decide (key = "imprint") then pc_imprint p
      else if decide (key = "status") then pc_status p
      else if decide (key = "dueBackDate") then pc_dueBackDate p
      else None
  end.

(** The fields of a kind other than [id]. *)
Definition fieldsOf (k : Kind) : list string :=
  match k with
  | KAuthor => ["firstName"; "lastName"; "birthDate"; "deathDate"]
  | KGenre => ["name"]
  | KBook => ["title"; "authorIds"; "genreIds"; "isbn"; "summary"]
  | KCopy => ["bookId"; "imprint"; "status"; "dueBackDate"]
  end.

(** The request whose body lacks the key. *)
Definition without (key : string) (req : Request) : Request :=
  {| params_id := params_id req; query := query req;
     body := delete key (body req) |}.

(** ** Stores and requests used as examples *)

Definition sampleStore : Store := initializeData emptyStore.

Definition idRequest (id : string) : Request :=
  {| params_id := id; query := ∅; body := ∅ |}.

Definition genreRequest (id label : string) : Request :=
  {| params_id := id; query := ∅; body := {[ "name" := JStr label ]} |}.

(** Two Genres created from the same random draw. *)
Definition twoGenresOneId : Store :=
  exec (Post KGenre "0.4fzyo82mvyr" (genreRequest "" "Essay"))
    (exec (Post KGenre "0.4fzyo82mvyr" (genreRequest "" "Poetry")) emptyStore).

Definition foundation : Book :=
  {| b_id := "book1"; title := JStr "Foundation";
     authorIds := JArr [JStr "auth1"]; genreIds := JArr [JStr "gen1"];
     isbn := JStr "978-0-553-29335-4";
     summary :=
       JStr "The first book in the Foundation series by Isaac Asimov." |}.

Definition bookRequest (id label : string) : Request :=
  {| params_id := id; query := ∅;
     body := {[ "title" := JStr label;
                "authorIds" := JArr [JStr "auth1"];
                "genreIds" := JArr [JStr "gen1"];
                "isbn" := JStr "1";
                "summary" := JStr "s" ]} |}.

(** A Book request whose only author id is the JSON object
    [{"toString": "x"}]. *)
Definition objectIdRequest (id : string) : Request :=
  {| params_id := id; query := ∅;
     body := {[ "title" := JStr "X";
                "authorIds" := JArr [JObj [("toString", JStr "x")]];
                "genreIds" := JArr [JStr "gen1"];
                "isbn" := JStr "1";
                "summary" := JStr "s" ]} |}.

Definition authorRequest (id : string) : Request :=
  {| params_id := id; query := ∅;
     body := {[ "firstName" := JStr "Isaac";
                "birthDate" := JStr "1920-01-02" ]} |}.

(** The sample store after a Book was created from the draw [0.4fzyo82mvyr]. *)
Definition duneStore : Store :=
  (createBook "0.4fzyo82mvyr" (bookRequest "" "Dune") sampleStore).2.

(** ** Lookups, references and listings by kind *)

Definition entityKind (e : Entity) : Kind :=
  match e with
  | EAuthor _ => KAuthor
  | EGenre _ => KGenre
  | EBook _ => KBook
  | ECopy _ => KCopy
  end.

(** [findAuthorById], [findGenreById], [findBookById],
    [findBookCopyById], by kind. *)
Definition storeFind (k : Kind) (id : JsVal) (s : Store) : option Entity :=
  match k with
  | KAuthor => EAuthor <$> findAuthorById id s
  | KGenre => EGenre <$> findGenreById id s
  | KBook => EBook <$> findBookById id s
  | KCopy => ECopy <$> findBookCopyById id s
  end.

(** Every stored Copy references a stored Book. *)
Definition copiesResolve (s : Store) : Prop :=
  Forall (λ copy, is_Some (findBookById (bookId copy) s)) (bookCopies s).

(** Every author id and every genre id of the Book resolves in the
    store. *)
Definition bookResolves (b : Book) (s : Store) : Prop :=
  Forall (λ id, is_Some (findAuthorById id s)) (items (authorIds b))
  ∧ Forall (λ id, is_Some (findGenreById id s)) (items (genreIds b)).

(** The condition that the two filters of [getAllBookCopies] test
    together. *)
Definition matchesQuery (q : gmap string JsVal) (copy : BookCopy) : Prop :=
  (truthy (field q "bookId") = true →
   strictEqQuery (bookId copy) (field q "bookId"))
  ∧ (truthy (field q "status") = true →
     strictEqQuery (status copy) (field q "status")).

#[global] Instance matchesQuery_dec q copy : Decision (matchesQuery q copy).
Proof. unfold matchesQuery. apply _. Defined.

Definition copyRequest (id book label : string) : Request :=
  {| params_id := id; query := ∅;
     body := {[ "bookId" := JStr book; "imprint" := JStr "i";
                "status" := JStr label ]} |}.

(** * Properties *)

(** ** Lists searched, updated and spliced by index *)

Section list_facts.
Context {A B : Type} (f : A → B) `{EqDecision B}.

Lemma find_fmap_view {C} (g : A → C) (h : C → B) (id : B) (l : list A) :
  (∀ x, h (g x) = f x) →
  list_find (λ y, h y = id) (g <$> l)
  = prod_map (λ i, i) g <$> list_find (λ x, f x = id) l.
Proof.
  intros Hh. induction l as [|x l IH]; [done|].
  cbn. rewrite Hh. destruct (decide (f x = id)); [done|].
  rewrite IH. by destruct (list_find _ l) as [[??]|].
Qed.

Lemma fmap_insert_keeps (l : list A) i x y :
  l !! i = Some x → f y = f x → f <$> <[i:=y]> l = f <$> l.
Proof.
  intros Hi Hf. rewrite list_fmap_insert, Hf.
  apply list_insert_id. by rewrite list_lookup_fmap, Hi.
Qed.

Lemma find_delete_NoDup (l : list A) id i x :
  NoDup (f <$> l) →
  list_find (λ y, f y = id) l = Some (i, x) →
  list_find (λ y, f y = id) (delete i l) = None.
Proof.
  intros Hnd (Hi & Hx & _)%list_find_Some.
  apply list_find_None, Forall_forall. intros y Hy Hfy.
  apply list_elem_of_lookup in Hy as [j Hj].
  assert (Hinj : ∀ a b, (f <$> l) !! a = Some id → (f <$> l) !! b = Some id → a = b).
  { intros a b Ha Hb. eapply NoDup_lookup; eauto. }
  destruct (decide (j < i)) as [Hlt|Hge].
  - rewrite list_lookup_delete_lt in Hj by done.
    assert (j = i); [|lia].
    apply Hinj; rewrite list_lookup_fmap; [rewrite Hj|rewrite Hi]; simpl; congruence.
  - rewrite list_lookup_delete_ge in Hj by lia.
    assert (S j = i); [|lia].
    apply Hinj; rewrite list_lookup_fmap; [rewrite Hj|rewrite Hi]; simpl; congruence.
Qed.

End list_facts.


(** ** The handlers against the validation rules *)

Ltac case_truthy req key :=
  destruct (truthy (field (body req) key)); try reflexivity.

Lemma createAuthor_spec rnd req s :
  createAuthor rnd req s =
  match validation KAuthor (body req) s with
  | Fails message => (Error 400 "Bad Request" message, s)
  | FailsUnprinted => (Throws 400, s)
  | Passes =>
      let newAuthor :=
        {| a_id := generateId rnd;
           firstName := field (body req) "firstName";
           lastName := field (body req) "lastName";
           birthDate := field (body req) "birthDate";
           deathDate := field (body req) "deathDate" |} in
      (Json 201 newAuthor, addAuthor newAuthor s)
  end.
Proof.
  unfold createAuthor, validation; cbn.
  case_truthy req "firstName"; case_truthy req "birthDate".
Qed.

Lemma updateAuthorById_spec req s :
  updateAuthorById req s =
  match validation KAuthor (body req) s with
  | Fails message => (Error 400 "Bad Request" message, s)
  | FailsUnprinted => (Throws 400, s)
  | Passes =>
      match updateAuthor (params_id req)
              {| pa_id := None;
                 pa_firstName := Some (field (body req) "firstName");
                 pa_lastName := Some (field (body req) "lastName");
                 pa_birthDate := Some (field (body req) "birthDate");
                 pa_deathDate := Some (field (body req) "deathDate") |} s with
      | (None, s') => (Error 404 "Not Found" "Author not found", s')
      | (Some updatedAuthor, s') => (Json 200 updatedAuthor, s')
      end
  end.
Proof.
  unfold updateAuthorById, validation; cbn.
  case_truthy req "firstName"; case_truthy req "birthDate".
Qed.

Lemma createGenre_spec rnd req s :
  createGenre rnd req s =
  match validation KGenre (body req) s with
  | Fails message => (Error 400 "Bad Request" message, s)
  | FailsUnprinted => (Throws 400, s)
  | Passes =>
      let newGenre :=
        {| g_id := generateId rnd; name := field (body req) "name" |} in
      (Json 201 newGenre, addGenre newGenre s)
  end.
Proof. unfold createGenre, validation; cbn. case_truthy req "name". Qed.

Lemma updateGenreById_spec req s :
  updateGenreById req s =
  match validation KGenre (body req) s with
  | Fails message => (Error 400 "Bad Request" message, s)
  | FailsUnprinted => (Throws 400, s)
  | Passes =>
      match updateGenre (params_id req)
              {| pg_id := None; pg_name := Some (field (body req) "name") |}
              s with
      | (None, s') => (Error 404 "Not Found" "Genre not found", s')
      | (Some updatedGenre, s') => (Json 200 updatedGenre, s')
      end
  end.
Proof.
  unfold updateGenreById, validation; cbn. case_truthy req "name".
Qed.

(** The two id filters of the book handlers, against [unresolved]. *)
Ltac case_unresolved :=
  unfold unresolved, listing;
  match goal with
  | |- context [filter ?P (items ?v)] =>
      destruct (filter P (items v)) as [|? ?]; cbn [length];
      [rewrite decide_False by lia
      |rewrite decide_True by lia; by destruct (join _ _)]
  end.

Lemma createBook_spec rnd req s :
  createBook rnd req s =
  match validation KBook (body req) s with
  | Fails message => (Error 400 "Bad Request" message, s)
  | FailsUnprinted => (Throws 400, s)
  | Passes =>
      let newBook :=
        {| b_id := generateId rnd; title := field (body req) "title";
           authorIds := field (body req) "authorIds";
           genreIds := field (body req) "genreIds";
           isbn := field (body req) "isbn";
           summary := field (body req) "summary" |} in
      (Json 201 newBook, addBook newBook s)
  end.
Proof.
  unfold createBook, validation;
    cbn [checks firstVerdict checkVerdict checkError requiredFields forallb
         requiredMessage].
  case_truthy req "title"; case_truthy req "authorIds";
    case_truthy req "genreIds"; case_truthy req "isbn";
    case_truthy req "summary".
  cbn [negb orb andb].
  destruct (nonEmptyArray (field (body req) "authorIds")); [|reflexivity].
  destruct (nonEmptyArray (field (body req) "genreIds")); [|reflexivity].
  cbn [negb]. case_unresolved. case_unresolved. reflexivity.
Qed.

Lemma updateBookById_spec req s :
  updateBookById req s =
  match validation KBook (body req) s with
  | Fails message => (Error 400 "Bad Request" message, s)
  | FailsUnprinted => (Throws 400, s)
  | Passes =>
      match updateBook (params_id req)
              {| pb_id := None; pb_title := Some (field (body req) "title");
                 pb_authorIds := Some (field (body req) "authorIds");
                 pb_genreIds := Some (field (body req) "genreIds");
                 pb_isbn := Some (field (body req) "isbn");
                 pb_summary := Some (field (body req) "summary") |} s with
      | (None, s') => (Error 404 "Not Found" "Book not found", s')
      | (Some updatedBook, s') => (Json 200 updatedBook, s')
      end
  end.
Proof.
  unfold updateBookById, validation;
    cbn [checks firstVerdict checkVerdict checkError requiredFields forallb
         requiredMessage].
  case_truthy req "title"; case_truthy req "authorIds";
    case_truthy req "genreIds"; case_truthy req "isbn";
    case_truthy req "summary".
  cbn [negb orb andb].
  destruct (nonEmptyArray (field (body req) "authorIds")); [|reflexivity].
  destruct (nonEmptyArray (field (body req) "genreIds")); [|reflexivity].
  cbn [negb]. case_unresolved. case_unresolved. reflexivity.
Qed.

Lemma createBookCopy_spec rnd req s :
  createBookCopy rnd req s =
  match validation KCopy (body req) s with
  | Fails message => (Error 400 "Bad Request" message, s)
  | FailsUnprinted => (Throws 400, s)
  | Passes =>
      let newBookCopy :=
        {| c_id := generateId rnd; bookId := field (body req) "bookId";
           imprint := field (body req) "imprint";
           status := field (body req) "status";
           dueBackDate := field (body req) "dueBackDate" |} in
      (Json 201 newBookCopy, addBookCopy newBookCopy s)
  end.
Proof.
  unfold createBookCopy, validation;
    cbn [checks firstVerdict checkVerdict checkError requiredFields forallb
         requiredMessage].
  case_truthy req "bookId"; case_truthy req "imprint";
    case_truthy req "status".
  cbn [negb orb andb].
  destruct (findBookById (field (body req) "bookId") s);
    [rewrite decide_False by done|by rewrite decide_True by done].
  by destruct (includes validStatuses (field (body req) "status")).
Qed.

Lemma updateBookCopyById_spec req s :
  updateBookCopyById req s =
  match validation KCopy (body req) s with
  | Fails message => (Error 400 "Bad Request" message, s)
  | FailsUnprinted => (Throws 400, s)
  | Passes =>
      match updateBookCopy (params_id req)
              {| pc_id := None; pc_bookId := Some (field (body req) "bookId");
                 pc_imprint := Some (field (body req) "imprint");
                 pc_status := Some (field (body req) "status");
                 pc_dueBackDate := Some (field (body req) "dueBackDate") |}
              s with
      | (None, s') => (Error 404 "Not Found" "Book copy not found", s')
      | (Some updatedBookCopy, s') => (Json 200 updatedBookCopy, s')
      end
  end.
Proof.
  unfold updateBookCopyById, validation;
    cbn [checks firstVerdict checkVerdict checkError requiredFields forallb
         requiredMessage].
  case_truthy req "bookId"; case_truthy req "imprint";
    case_truthy req "status".
  cbn [negb orb andb].
  destruct (findBookById (field (body req) "bookId") s);
    [rewrite decide_False by done|by rewrite decide_True by done].
  by destruct (includes validStatuses (field (body req) "status")).
Qed.

(** [firstFailure] is the error of the first check that fails: every check
    before it passes. *)
Lemma firstFailure_Some err cs message :
  firstFailure err cs = Some message ↔
  ∃ pre c post, cs = pre ++ c :: post
                ∧ Forall (λ c', err c' = None) pre
                ∧ err c = Some message.
Proof.
  induction cs as [|c cs IH]; cbn [firstFailure].
  - split; [done|]. by intros ([|??] & ? & ? & ? & _).
  - destruct (err c) as [m|] eqn:Hc.
    + split.
      * intros [= ->]. by exists [], c, cs.
      * intros ([|c' pre] & c0 & post & Heq & Hpre & Hc0).
        -- injection Heq as <- _. congruence.
        -- injection Heq as <- _. apply Forall_cons in Hpre as [? _].
           congruence.
    + rewrite IH. split.
      * intros (pre & c0 & post & -> & Hpre & Hc0).
        exists (c :: pre), c0, post. split_and!; [done| |done].
        by apply Forall_cons.
      * intros ([|c' pre] & c0 & post & Heq & Hpre & Hc0).
        -- injection Heq as <- _. congruence.
        -- injection Heq as <- ->. apply Forall_cons in Hpre as [_ Hpre].
           by exists pre, c0, post.
Qed.

Lemma elem_of_unresolved {R} (lookup : JsVal → option R) ids id :
  id ∈ unresolved lookup ids ↔ id ∈ items ids ∧ lookup id = None.
Proof. unfold unresolved. rewrite list_elem_of_filter. tauto. Qed.

(** The falsy values: [undefined], [null], [false], the empty string and
    the numbers 0, -0 and NaN. *)
Lemma truthy_false_iff v :
  truthy v = false ↔
  v = JUndefined ∨ v = JNull ∨ v = JBool false ∨ v = JStr ""
  ∨ ∃ n, v = JNum n ∧ num_falsy n = true.
Proof.
  split.
  - destruct v as [| |[]|n|s| |]; cbn; try done; auto.
    + intros Hn%negb_false_iff. do 4 right. eauto.
    + intros Hs%negb_false_iff%String.eqb_eq. subst. auto.
  - intros [->|[->|[->|[->|(n & -> & Hn)]]]]; cbn; try done.
    by rewrite Hn.
Qed.

(** What each check tests. *)
Lemma checkError_required k o s :
  checkError k o s RequiredFields = None ↔
  Forall (λ key, truthy (field o key) = true) (requiredFields k).
Proof.
  cbn [checkError]. rewrite Forall_forall.
  destruct (forallb _ _) eqn:Hall.
  - split; [|done]. intros _ key Hkey%list_elem_of_In.
    rewrite forallb_forall in Hall. by apply Hall.
  - split; [done|]. intros Hreq.
    assert (forallb (λ key, truthy (field o key)) (requiredFields k) = true);
      [|congruence].
    apply forallb_forall. intros key Hkey%list_elem_of_In. by apply Hreq.
Qed.

Lemma nonEmptyArray_true v :
  nonEmptyArray v = true ↔ ∃ x l, v = JArr (x :: l).
Proof.
  destruct v as [| | | | |[|x l]|]; cbn; split; try done;
    try (by intros (? & ? & ?)).
  eauto.
Qed.

Lemma checkError_shape k o s :
  (checkError k o s AuthorIdsShape = None ↔
   ∃ x l, field o "authorIds" = JArr (x :: l))
  ∧ (checkError k o s GenreIdsShape = None ↔
     ∃ x l, field o "genreIds" = JArr (x :: l)).
Proof.
  cbn [checkError]. rewrite <- !nonEmptyArray_true.
  split; by destruct (nonEmptyArray _).
Qed.

(** The required-fields check comes first for every kind. *)
Lemma validation_required k o s key :
  key ∈ requiredFields k → truthy (field o key) = false →
  validation k o s = Fails (requiredMessage k).
Proof.
  intros Hkey Hfalsy.
  assert (Hall : forallb (λ key, truthy (field o key)) (requiredFields k)
                 = false).
  { apply not_true_is_false. intros Hall.
    rewrite forallb_forall in Hall.
    apply list_elem_of_In, Hall in Hkey. congruence. }
  unfold validation.
  assert (Hfirst : ∃ cs, checks k = RequiredFields :: cs)
    by (destruct k; eexists; reflexivity).
  destruct Hfirst as [cs ->].
  cbn [firstVerdict checkVerdict checkError]. by rewrite Hall.
Qed.

(** Joining strings: they are their own text. *)
Lemma join_strings sep (l : list string) :
  join sep (JStr <$> l) = Some (String.concat sep l).
Proof.
  unfold join.
  assert (Htexts : mapM itemText (JStr <$> l) = Some l).
  { induction l as [|x l IH]; [done|]. cbn. by rewrite IH. }
  by rewrite Htexts.
Qed.

(** A listing passes when there is nothing to list. *)
Lemma listing_Passes prefix bad : listing prefix bad = Passes ↔ bad = [].
Proof.
  destruct bad as [|x l]; [done|]. cbn [listing].
  by destruct (join ", " (x :: l)).
Qed.

(** Outside the Books a check that fails has a message: the validation
    is the first message. *)
Lemma validation_messages k o s :
  k ≠ KBook →
  validation k o s
  = match firstFailure (checkError k o s) (checks k) with
    | Some message => Fails message
    | None => Passes
    end.
Proof.
  intros Hk. unfold validation.
  destruct k; try done;
    cbn [checks firstVerdict firstFailure checkVerdict];
    repeat (destruct (checkError _ o s _); [done|]); done.
Qed.

(** Only the validation of a Book can fail without a message. *)
Lemma validation_unprinted k o s :
  validation k o s = FailsUnprinted → k = KBook.
Proof.
  intros Hv. destruct (decide (k = KBook)) as [|Hk]; [done|].
  rewrite validation_messages in Hv by done.
  by destruct (firstFailure _ _).
Qed.

(** The validation of a Book fails without a message when the Author ids
    that do not resolve have no text, or when all Author ids resolve and
    the Genre ids that do not resolve have no text. *)
Lemma validation_book_unprinted o s :
  validation KBook o s = FailsUnprinted →
  join ", " (unresolved (λ id, findAuthorById id s) (field o "authorIds"))
  = None
  ∨ (unresolved (λ id, findAuthorById id s) (field o "authorIds") = []
     ∧ join ", " (unresolved (λ id, findGenreById id s)
                    (field o "genreIds")) = None).
Proof.
  unfold validation.
  cbn [checks firstVerdict checkVerdict checkError requiredFields
       requiredMessage].
  destruct (forallb _ _); [|done].
  destruct (nonEmptyArray (field o "authorIds")); [|done].
  destruct (nonEmptyArray (field o "genreIds")); [|done].
  unfold listing.
  destruct (unresolved _ (field o "authorIds")) as [|x l].
  - destruct (unresolved _ (field o "genreIds")) as [|y l']; [done|].
    destruct (join ", " (y :: l')); [done|]. by right.
  - destruct (join ", " (x :: l)); [done|]. by left.
Qed.

(** A Book payload passes validation when its five required fields are
    truthy and authorIds and genreIds are non-empty arrays of ids that
    resolve. *)
Lemma validation_book_Passes o s :
  validation KBook o s = Passes ↔
  Forall (λ key, truthy (field o key) = true) (requiredFields KBook)
  ∧ nonEmptyArray (field o "authorIds") = true
  ∧ nonEmptyArray (field o "genreIds") = true
  ∧ Forall (λ id, is_Some (findAuthorById id s)) (items (field o "authorIds"))
  ∧ Forall (λ id, is_Some (findGenreById id s)) (items (field o "genreIds")).
Proof.
  assert (Hres : ∀ {R} (lookup : JsVal → option R) v,
    unresolved lookup v = [] ↔ Forall (λ id, is_Some (lookup id)) (items v)).
  { intros R lookup v. unfold unresolved.
    induction (items v) as [|x l IH]; [done|].
    rewrite filter_cons, Forall_cons, <- IH.
    destruct (decide (lookup x = None)) as [Hx|Hx].
    - split; [done|]. intros [[? Hs] _]. congruence.
    - split; [|tauto]. intros ->. split; [|done].
      by destruct (lookup x). }
  unfold validation.
  cbn [checks firstVerdict checkVerdict checkError requiredFields
       requiredMessage].
  rewrite <- !Hres.
  rewrite <- (listing_Passes "Invalid author IDs: "
                (unresolved (λ id, findAuthorById id s) _)).
  rewrite <- (listing_Passes "Invalid genre IDs: "
                (unresolved (λ id, findGenreById id s) _)).
  destruct (forallb _ _) eqn:Hreq.
  - assert (Hall : Forall (λ key, truthy (field o key) = true)
                     ["title"; "authorIds"; "genreIds"; "isbn"; "summary"]).
    { apply Forall_forall. intros key Hkey.
      rewrite forallb_forall in Hreq. by apply Hreq, list_elem_of_In. }
    destruct (nonEmptyArray (field o "authorIds"));
      [|by split; [|intros (?&?&?&?&?)]].
    destruct (nonEmptyArray (field o "genreIds"));
      [|by split; [|intros (?&?&?&?&?)]].
    destruct (listing _ (unresolved _ (field o "authorIds")));
      try (by split; [|intros (?&?&?&?&?)]).
    destruct (listing _ (unresolved _ (field o "genreIds")));
      by split; [|intros (?&?&?&?&?)].
  - split; [done|]. intros (Hall & _).
    assert (forallb (λ key, truthy (field o key))
              ["title"; "authorIds"; "genreIds"; "isbn"; "summary"] = true);
      [|congruence].
    apply forallb_forall. intros key Hkey%list_elem_of_In.
    by eapply Forall_forall in Hall.
Qed.

Lemma field_without key req : field (body (without key req)) key = JUndefined.
Proof. unfold field, without; cbn. by rewrite lookup_delete_eq. Qed.

(** ** The tables by kind *)

Lemma firstIndex_authors id s :
  firstIndex KAuthor id s
  = prod_map (λ i, i) EAuthor <$> list_find (λ a, a_id a = id) (authors s).
Proof. apply (find_fmap_view a_id EAuthor entityId); done. Qed.

Lemma firstIndex_genres id s :
  firstIndex KGenre id s
  = prod_map (λ i, i) EGenre <$> list_find (λ g, g_id g = id) (genres s).
Proof. apply (find_fmap_view g_id EGenre entityId); done. Qed.

Lemma firstIndex_books id s :
  firstIndex KBook id s
  = prod_map (λ i, i) EBook <$> list_find (λ b, b_id b = id) (books s).
Proof. apply (find_fmap_view b_id EBook entityId); done. Qed.

Lemma firstIndex_bookCopies id s :
  firstIndex KCopy id s
  = prod_map (λ i, i) ECopy <$> list_find (λ c, c_id c = id) (bookCopies s).
Proof. apply (find_fmap_view c_id ECopy entityId); done. Qed.

Ltac by_kind_find :=
  rewrite ?firstIndex_authors, ?firstIndex_genres, ?firstIndex_books,
    ?firstIndex_bookCopies.

(** The create handler of every kind: validation, then a row made of the
    generated id and of the body's fields is appended. *)
Lemma route_post_spec k rnd req s :
  route_post k rnd req s =
  match validation k (body req) s with
  | Fails message => (Error 400 "Bad Request" message, s)
  | FailsUnprinted => (Throws 400, s)
  | Passes =>
      (Json 201 (fromBody k (generateId rnd) (body req)),
       storeAdd (fromBody k (generateId rnd) (body req)) s)
  end.
Proof.
  destruct k; cbn [route_post].
  - rewrite createAuthor_spec. by destruct (validation _ _ _).
  - rewrite createGenre_spec. by destruct (validation _ _ _).
  - rewrite createBook_spec. by destruct (validation _ _ _).
  - rewrite createBookCopy_spec. by destruct (validation _ _ _).
Qed.

(** The update handler of every kind: validation, then the storage
    update. *)
Lemma route_put_spec k req s :
  route_put k req s =
  match validation k (body req) s with
  | Fails message => (Error 400 "Bad Request" message, s)
  | FailsUnprinted => (Throws 400, s)
  | Passes =>
      match storeUpdate (params_id req) (bodyPartial k (body req)) s with
      | (None, s') => (Error 404 "Not Found" (notFoundMessage k), s')
      | (Some e, s') => (Json 200 e, s')
      end
  end.
Proof.
  destruct k; cbn [route_put bodyPartial storeUpdate notFoundMessage].
  - rewrite updateAuthorById_spec. destruct (validation _ _ _); [done|done|].
    by destruct (updateAuthor _ _ s) as [[?|] ?].
  - rewrite updateGenreById_spec. destruct (validation _ _ _); [done|done|].
    by destruct (updateGenre _ _ s) as [[?|] ?].
  - rewrite updateBookById_spec. destruct (validation _ _ _); [done|done|].
    by destruct (updateBook _ _ s) as [[?|] ?].
  - rewrite updateBookCopyById_spec. destruct (validation _ _ _); [done|done|].
    by destruct (updateBookCopy _ _ s) as [[?|] ?].
Qed.

(** What the storage update does, on the table of its kind. *)
Lemma storeUpdate_spec id p s :
  match firstIndex (partialKind p) id s with
  | None => storeUpdate id p s = (None, s)
  | Some (i, old) =>
      ∃ s', storeUpdate id p s = (Some (spread old p), s')
            ∧ table (partialKind p) s'
              = <[i := spread old p]> (table (partialKind p) s)
            ∧ ∀ k, k ≠ partialKind p → table k s' = table k s
  end.
Proof.
  destruct p as [p|p|p|p]; cbn [partialKind storeUpdate]; by_kind_find.
  - unfold updateAuthor.
    destruct (list_find _ (authors s)) as [[i old]|]; [|done].
    eexists; split; [reflexivity|]. split; [|by intros []].
    cbn. by rewrite list_fmap_insert.
  - unfold updateGenre.
    destruct (list_find _ (genres s)) as [[i old]|]; [|done].
    eexists; split; [reflexivity|]. split; [|by intros []].
    cbn. by rewrite list_fmap_insert.
  - unfold updateBook.
    destruct (list_find _ (books s)) as [[i old]|]; [|done].
    eexists; split; [reflexivity|]. split; [|by intros []].
    cbn. by rewrite list_fmap_insert.
  - unfold updateBookCopy.
    destruct (list_find _ (bookCopies s)) as [[i old]|]; [|done].
    eexists; split; [reflexivity|]. split; [|by intros []].
    cbn. by rewrite list_fmap_insert.
Qed.

(** What the storage delete does, on the table view. *)
Lemma storeDelete_spec k id s :
  match firstIndex k id s with
  | None => storeDelete k id s = (false, s)
  | Some (i, _) =>
      ∃ s', storeDelete k id s = (true, s')
            ∧ table k s' = delete i (table k s)
            ∧ bookCopies s' =
                (if decide (k = KBook) then
                   filter (λ copy, ¬ strictEq (bookId copy) id) (bookCopies s)
                 else if decide (k = KCopy) then delete i (bookCopies s)
                 else bookCopies s)
            ∧ ∀ k', k' ≠ k → k' ≠ KCopy → table k' s' = table k' s
  end.
Proof.
  destruct k; cbn [storeDelete]; by_kind_find.
  - unfold deleteAuthor.
    destruct (list_find _ (authors s)) as [[i old]|]; [|done].
    eexists; split; [reflexivity|]. split_and!; [|done|by intros []].
    cbn. by rewrite list_fmap_delete.
  - unfold deleteGenre.
    destruct (list_find _ (genres s)) as [[i old]|]; [|done].
    eexists; split; [reflexivity|]. split_and!; [|done|by intros []].
    cbn. by rewrite list_fmap_delete.
  - unfold deleteBook.
    destruct (list_find _ (books s)) as [[i old]|]; [|done].
    eexists; split; [reflexivity|]. split_and!; [|done|by intros []].
    cbn. by rewrite list_fmap_delete.
  - unfold deleteBookCopy.
    destruct (list_find _ (bookCopies s)) as [[i old]|]; [|done].
    eexists; split; [reflexivity|]. split_and!; [|done|by intros []].
    cbn. by rewrite list_fmap_delete.
Qed.

Lemma route_delete_spec k req s :
  route_delete k req s =
  ((if (storeDelete k (params_id req) s).1 then Send 204
    else Error 404 "Not Found" (notFoundMessage k)),
   (storeDelete k (params_id req) s).2).
Proof.
  destruct k; cbn [route_delete storeDelete notFoundMessage].
  - unfold deleteAuthorById. by destruct (deleteAuthor _ s) as [[] ?].
  - unfold deleteGenreById. by destruct (deleteGenre _ s) as [[] ?].
  - unfold deleteBookById. by destruct (deleteBook _ s) as [[] ?].
  - unfold deleteBookCopyById. by destruct (deleteBookCopy _ s) as [[] ?].
Qed.

Lemma table_storeAdd k id o s k' :
  table k' (storeAdd (fromBody k id o) s)
  = if decide (k' = k) then table k s ++ [fromBody k id o] else table k' s.
Proof. destruct k, k'; cbn; by rewrite ?fmap_app. Qed.

Lemma entityId_fromBody k id o : entityId (fromBody k id o) = id.
Proof. by destruct k. Qed.

(** Rows of the table of a kind are of that kind; on them the object built
    by the update handler replaces every field but the id. *)
Lemma spread_bodyPartial k o s e :
  e ∈ table k s → spread e (bodyPartial k o) = fromBody k (entityId e) o.
Proof. destruct k; cbn; intros (x & -> & _)%list_elem_of_fmap; done. Qed.

Lemma entityId_spread e p :
  entityId (spread e p) =
  match e, p with
  | EAuthor _, PAuthor _ | EGenre _, PGenre _ | EBook _, PBook _
  | ECopy _, PCopy _ => default (entityId e) (partialId p)
  | _, _ => entityId e
  end.
Proof. by destruct e, p. Qed.

Lemma partialKind_bodyPartial k o : partialKind (bodyPartial k o) = k.
Proof. by destruct k. Qed.

(** The storage update changes one row of one table at most. *)
Lemma storeUpdate_frame id p s :
  (∀ k, length (table k (storeUpdate id p s).2) = length (table k s))
  ∧ (∀ k, k ≠ partialKind p → table k (storeUpdate id p s).2 = table k s)
  ∧ (∀ j, fst <$> firstIndex (partialKind p) id s ≠ Some j →
          table (partialKind p) (storeUpdate id p s).2 !! j
          = table (partialKind p) s !! j).
Proof.
  pose proof (storeUpdate_spec id p s) as Hspec.
  destruct (firstIndex (partialKind p) id s) as [[i old]|].
  - destruct Hspec as (s' & -> & Htab & Hother). cbn [snd]. split_and!.
    + intros k. destruct (decide (k = partialKind p)) as [->|Hne].
      * by rewrite Htab, length_insert.
      * by rewrite Hother.
    + done.
    + intros j Hj. rewrite Htab. apply list_lookup_insert_ne.
      intros ->. by apply Hj.
  - by rewrite Hspec.
Qed.

(** The merge of a row with a partial object of its kind: a key of the
    object overrides, a key that it lacks keeps the row's value. *)
Lemma entityField_spread k s e p key :
  e ∈ table k s → partialKind p = k →
  entityField (spread e p) key
  = default (entityField e key) (partialField p key).
Proof.
  intros He <-.
  destruct p as [p|p|p|p]; cbn in He;
    apply list_elem_of_fmap in He as (x & -> & _);
    cbn [spread entityField partialField];
    repeat case_decide; try done.
  - cbn. by destruct (pa_id p).
  - cbn. by destruct (pg_id p).
  - cbn. by destruct (pb_id p).
  - cbn. by destruct (pc_id p).
Qed.

Lemma entityField_fromBody k id o key :
  key ∈ fieldsOf k → entityField (fromBody k id o) key = field o key.
Proof.
  destruct k; cbn [fieldsOf fromBody entityField]; intros Hkey;
    repeat (apply elem_of_cons in Hkey as [->|Hkey]; [by vm_compute|]);
    by apply elem_of_nil in Hkey.
Qed.

(** A lookup by a string id is the first row with that id. *)
Lemma findBookById_string id s :
  findBookById (JStr id) s
  = snd <$> list_find (λ book, b_id book = id) (books s).
Proof.
  unfold findBookById. f_equal. apply list_find_ext.
  intros b. unfold strictEq. split; [by intros [= ->]|by intros ->].
Qed.

Lemma route_get_firstIndex k req s :
  route_get k req s =
  match firstIndex k (params_id req) s with
  | Some (_, e) => Json 200 e
  | None => Error 404 "Not Found" (notFoundMessage k)
  end.
Proof.
  assert (Hext : ∀ {A} (f : A → string) (l : list A) (id : string),
    list_find (λ x, strictEq (JStr id) (f x)) l
    = list_find (λ x, f x = id) l).
  { intros A f l id. apply list_find_ext. intros x. unfold strictEq.
    split; [by intros [= ->]|by intros ->]. }
  destruct k; cbn [route_get notFoundMessage]; by_kind_find.
  - unfold getAuthorById, findAuthorById. rewrite Hext.
    by destruct (list_find _ (authors s)) as [[??]|].
  - unfold getGenreById, findGenreById. rewrite Hext.
    by destruct (list_find _ (genres s)) as [[??]|].
  - unfold getBookById, findBookById. rewrite Hext.
    by destruct (list_find _ (books s)) as [[??]|].
  - unfold getBookCopyById, findBookCopyById. rewrite Hext.
    by destruct (list_find _ (bookCopies s)) as [[??]|].
Qed.

(** The list handler of the copies answers with rows of the table. *)
Lemma getAllBookCopies_subseteq req s :
  ∃ copies, getAllBookCopies req s = Json 200 copies
            ∧ copies ⊆ bookCopies s.
Proof.
  unfold getAllBookCopies. eexists; split; [reflexivity|].
  intros c Hc.
  destruct (truthy (field (query req) "status"));
    destruct (truthy (field (query req) "bookId"));
    repeat (apply list_elem_of_filter in Hc as [_ Hc]); done.
Qed.

(** The generated id is empty only for the draw 0, whose rendering has no
    digit after the point. *)
Lemma generateId_nonempty rnd : 2 < String.length rnd → generateId rnd ≠ "".
Proof.
  unfold generateId.
  destruct rnd as [|a [|b [|c rest]]]; cbn; [lia..|done].
Qed.

(** ** Identifiers along a run *)

(** No operation rewrites an id: an update keeps the id of every row, a
    delete only drops rows, a create only appends one. *)
Lemma exec_ids (op : Op) (s : Store) (k : Kind) :
  match op with
  | Put _ _ =>
      entityId <$> table k (exec op s) = entityId <$> table k s
  | Delete _ _ => table k (exec op s) `sublist_of` table k s
  | Post _ _ _ => table k s `prefix_of` table k (exec op s)
  end.
Proof.
  destruct op as [k0 rnd req|k0 req|k0 req]; cbn [exec].
  - rewrite route_post_spec. destruct (validation _ _ _); [done|done|].
    cbn [snd]. rewrite table_storeAdd. case_decide as Hk; [|done].
    subst. by apply prefix_app_r.
  - rewrite route_put_spec. destruct (validation _ _ _); [done|done|].
    pose proof (storeUpdate_spec (params_id req) (bodyPartial k0 (body req)) s)
      as Hspec.
    rewrite partialKind_bodyPartial in Hspec.
    destruct (firstIndex k0 (params_id req) s) as [[i old]|] eqn:Hidx.
    + destruct Hspec as (s' & -> & Htab & Hother). cbn [snd].
      destruct (decide (k = k0)) as [->|Hne]; [|by rewrite Hother].
      rewrite Htab.
      pose proof Hidx as (Hlook & _)%list_find_Some.
      apply (fmap_insert_keeps entityId _ _ old); [done|].
      rewrite (spread_bodyPartial k0 _ s)
        by (by eapply list_elem_of_lookup_2).
      apply entityId_fromBody.
    + by rewrite Hspec.
  - rewrite route_delete_spec. cbn [snd].
    pose proof (storeDelete_spec k0 (params_id req) s) as Hspec.
    destruct (firstIndex k0 (params_id req) s) as [[i old]|].
    + destruct Hspec as (s' & -> & Htab & Hcopies & Hother). cbn [snd].
      destruct (decide (k = k0)) as [->|Hne].
      { rewrite Htab. apply sublist_delete. }
      destruct (decide (k = KCopy)) as [->|Hnc]; [|by rewrite Hother].
      cbn [table]. rewrite Hcopies. apply fmap_sublist.
      case_decide; [apply sublist_filter|].
      case_decide; [apply sublist_delete|done].
    + by rewrite Hspec.
Qed.

Lemma uniqueIds_emptyStore : uniqueIds emptyStore.
Proof. intros []; cbn; apply NoDup_nil_2. Qed.

Lemma uniqueIds_sampleStore : uniqueIds sampleStore.
Proof.
  intros []; apply (bool_decide_unpack _); by vm_compute.
Qed.

(** ** The claims *)

(** C1. If a Book with the id exists, deleting it removes that Book (the
    first row of the Books table with the id) together with every Copy
    whose [bookId] is the id, answers 204, and leaves no Copy referencing
    the id: neither in the Copies table nor in any later listing of the
    copies. The deletion is one transition of the store: the handler
    returns the state [s'] in which both removals are done, and this is
    the state every later operation starts from; Authors and Genres are
    as before. When ids are unique no Book with the id is left. *)
Theorem C1_deleteBook_cascade (s : Store) (id : string) (b : Book) :
  findBookById (JStr id) s = Some b →
  ∃ index s',
    deleteBook id s = (true, s')
    ∧ (∀ q o,
         deleteBookById {| params_id := id; query := q; body := o |} s
         = (Send 204, s'))
    ∧ books s !! index = Some b ∧ b_id b = id
    ∧ books s' = delete index (books s)
    ∧ bookCopies s'
      = filter (λ copy, ¬ strictEq (bookId copy) id) (bookCopies s)
    ∧ Forall (λ copy, bookId copy ≠ JStr id) (bookCopies s')
    ∧ (∀ req, ∃ copies,
         getAllBookCopies req s' = Json 200 copies
         ∧ Forall (λ copy, bookId copy ≠ JStr id) copies)
    ∧ authors s' = authors s ∧ genres s' = genres s
    ∧ (NoDup (b_id <$> books s) → findBookById (JStr id) s' = None).
Proof.
  rewrite findBookById_string. intros Hfind.
  destruct (list_find _ (books s)) as [[index b']|] eqn:Hidx; [|done].
  injection Hfind as ->.
  pose proof Hidx as (Hlook & Hid & _)%list_find_Some.
  assert (Hdel : deleteBook id s =
    (true, set_books (delete index (books s))
             (set_bookCopies
                (filter (λ copy, ¬ strictEq (bookId copy) id) (bookCopies s))
                s))).
  { unfold deleteBook. by rewrite Hidx. }
  assert (Hnone : Forall (λ copy, bookId copy ≠ JStr id)
            (filter (λ copy, ¬ strictEq (bookId copy) id) (bookCopies s))).
  { apply Forall_forall. by intros c [Hc _]%list_elem_of_filter. }
  eexists index, _. split; [exact Hdel|].
  split_and!; try done.
  - intros q o. unfold deleteBookById. cbn [params_id]. by rewrite Hdel.
  - intros req.
    destruct (getAllBookCopies_subseteq req
                (set_books (delete index (books s))
                   (set_bookCopies
                      (filter (λ copy, ¬ strictEq (bookId copy) id)
                         (bookCopies s)) s)))
      as (copies & Heq & Hsub).
    exists copies. split; [done|].
    apply Forall_forall. intros c Hc. apply Hsub in Hc.
    by eapply Forall_forall in Hnone.
  - intros Hnd. rewrite findBookById_string. cbn [books set_books].
    by rewrite (find_delete_NoDup b_id _ _ _ _ Hnd Hidx).
Qed.

Lemma C1_deleteBook_cascade_witness :
  findBookById (JStr "book1") sampleStore
  = Some
      foundation
  ∧ ∃ index s',
      deleteBook "book1" sampleStore = (true, s')
      ∧ books s' = delete index (books sampleStore)
      ∧ Forall (λ copy, bookId copy ≠ JStr "book1") (bookCopies s').
Proof.
  assert (H : findBookById (JStr "book1") sampleStore
    = Some
      foundation)
    by (vm_compute; reflexivity).
  split; [exact H|].
  destruct (C1_deleteBook_cascade _ _ _ H)
    as (index & s' & Hdel & _ & _ & _ & Hbooks & _ & Hcopies & _).
  exists index, s'. auto.
Defined.

(** The scenario of the specification: a Book is created, then a Copy of
    it; deleting the Book answers 204, and the copies listed for its id
    are none. *)
Example delete_book_scenario :
  let s1 := (createBook "0.4fzyo82mvyr" (bookRequest "" "Dune") sampleStore).2 in
  let s2 :=
    (createBookCopy "0.q9xk2l07cze"
       {| params_id := ""; query := ∅;
          body := {[ "bookId" := JStr "4fzyo82mv"; "imprint" := JStr "i";
                     "status" := JStr "available" ]} |} s1).2 in
  length (bookCopies s2) = 2
  ∧ (deleteBookById (idRequest "4fzyo82mv") s2).1 = Send 204
  ∧ getAllBookCopies
      {| params_id := ""; query := {[ "bookId" := JStr "4fzyo82mv" ]};
         body := ∅ |}
      (deleteBookById (idRequest "4fzyo82mv") s2).2
    = Json 200 [].
Proof. split_and!; by vm_compute. Qed.

(** C2. The documentation of the Book handlers promises a 400 answer
    with an error message whenever validation fails, and C2 the message
    that lists every id that does not resolve. The code builds that
    message with [join] on ids it has not looked at: on the sample store,
    for the request whose only author id is the JSON object
    [{"toString": "x"}], the three checks before the author check pass,
    the id resolves to no Author, it has no text, and both create and
    update throw after the status was set to 400: no message is answered.
    The store is left as it is. *)
Theorem C2_book_validation_throws :
  Forall (λ c, checkVerdict KBook (body (objectIdRequest "book1"))
                 sampleStore c = Passes)
    [RequiredFields; AuthorIdsShape; GenreIdsShape]
  ∧ unresolved (λ id, findAuthorById id sampleStore)
      (field (body (objectIdRequest "book1")) "authorIds")
    = [JObj [("toString", JStr "x")]]
  ∧ toString (JObj [("toString", JStr "x")]) = None
  ∧ join ", " [JObj [("toString", JStr "x")]] = None
  ∧ validation KBook (body (objectIdRequest "book1")) sampleStore
    = FailsUnprinted
  ∧ createBook "0.4fzyo82mvyr" (objectIdRequest "") sampleStore
    = (Throws 400, sampleStore)
  ∧ updateBookById (objectIdRequest "book1") sampleStore
    = (Throws 400, sampleStore).
Proof.
  split_and!; try (by vm_compute).
  repeat constructor.
Qed.

(** The scenario of the specification: array-shape checks precede the
    reference checks. *)
Example createBook_shape_before_references :
  createBook "0.4fzyo82mvyr"
    {| params_id := ""; query := ∅;
       body := {[ "title" := JStr "X"; "authorIds" := JArr [JStr "bad-id"];
                  "genreIds" := JArr []; "isbn" := JStr "1";
                  "summary" := JStr "s" ]} |} emptyStore
  = (Error 400 "Bad Request" "genreIds must be a non-empty array",
     emptyStore).
Proof. by vm_compute. Qed.

(** Every id that does not resolve is listed. *)
Example createBook_lists_all_invalid_authors :
  createBook "0.4fzyo82mvyr"
    {| params_id := ""; query := ∅;
       body := {[ "title" := JStr "X";
                  "authorIds" := JArr [JStr "a9"; JStr "auth1"; JStr "b7"];
                  "genreIds" := JArr [JStr "nope"]; "isbn" := JStr "1";
                  "summary" := JStr "s" ]} |} sampleStore
  = (Error 400 "Bad Request" "Invalid author IDs: a9, b7", sampleStore).
Proof. by vm_compute. Qed.

(** C3. For every Copy create or update request the checks run in the
    order: required fields (bookId, imprint, status), bookId resolves to a
    Book, status is one of available, unavailable, can be checkout,
    checked out. The answer is 400 with the message of the first check
    that fails and the store is left as it is. In particular a creation
    whose bookId resolves to no Book is answered 400 and appends no row to
    the Copies table. *)
Theorem C3_copy_validation_order (rnd : string) (req : Request) (s : Store) :
  checks KCopy = [RequiredFields; BookExists; StatusValid]
  ∧ createBookCopy rnd req s
    = match firstFailure (checkError KCopy (body req) s) (checks KCopy) with
      | Some message => (Error 400 "Bad Request" message, s)
      | None =>
          let newBookCopy :=
            {| c_id := generateId rnd; bookId := field (body req) "bookId";
               imprint := field (body req) "imprint";
               status := field (body req) "status";
               dueBackDate := field (body req) "dueBackDate" |} in
          (Json 201 newBookCopy, addBookCopy newBookCopy s)
      end
  ∧ updateBookCopyById req s
    = match firstFailure (checkError KCopy (body req) s) (checks KCopy) with
      | Some message => (Error 400 "Bad Request" message, s)
      | None =>
          match updateBookCopy (params_id req)
                  {| pc_id := None;
                     pc_bookId := Some (field (body req) "bookId");
                     pc_imprint := Some (field (body req) "imprint");
                     pc_status := Some (field (body req) "status");
                     pc_dueBackDate := Some (field (body req) "dueBackDate") |}
                  s with
          | (None, s') => (Error 404 "Not Found" "Book copy not found", s')
          | (Some updatedBookCopy, s') => (Json 200 updatedBookCopy, s')
          end
      end
  ∧ (∀ message,
       firstFailure (checkError KCopy (body req) s) (checks KCopy)
       = Some message ↔
       ∃ pre c post,
         checks KCopy = pre ++ c :: post
         ∧ Forall (λ c', checkError KCopy (body req) s c' = None) pre
         ∧ checkError KCopy (body req) s c = Some message)
  ∧ (checkError KCopy (body req) s RequiredFields = None ↔
     Forall (λ key, truthy (field (body req) key) = true)
       ["bookId"; "imprint"; "status"])
  ∧ (checkError KCopy (body req) s BookExists = None ↔
     is_Some (findBookById (field (body req) "bookId") s))
  ∧ (checkError KCopy (body req) s StatusValid = None ↔
     ∃ label, field (body req) "status" = JStr label
              ∧ label ∈ ["available"; "unavailable"; "can be checkout";
                         "checked out"])
  ∧ (findBookById (field (body req) "bookId") s = None →
     ∃ message,
       createBookCopy rnd req s = (Error 400 "Bad Request" message, s)
       ∧ bookCopies (createBookCopy rnd req s).2 = bookCopies s).
Proof.
  split_and!.
  - reflexivity.
  - rewrite createBookCopy_spec, validation_messages by done.
    by destruct (firstFailure _ _).
  - rewrite updateBookCopyById_spec, validation_messages by done.
    by destruct (firstFailure _ _).
  - intros message. apply firstFailure_Some.
  - apply (checkError_required KCopy).
  - cbn [checkError]. destruct (findBookById _ s) as [book|].
    + split; [by exists book|done].
    + split; [done|by intros [? ?]].
  - cbn [checkError]. unfold includes.
    destruct (field (body req) "status") as [| | | |label| |];
      try (split; [done|by intros (? & ? & _)]).
    fold validStatuses. case_bool_decide as Hin.
    + split; [eauto|done].
    + split; [done|]. by intros (? & [= <-] & ?).
  - intros Hnone. rewrite createBookCopy_spec, validation_messages by done.
    cbn [checks firstFailure checkError].
    rewrite Hnone.
    destruct (forallb _ _); eexists; split; reflexivity.
Qed.

Lemma C3_copy_validation_order_witness :
  findBookById
    (field (body {| params_id := ""; query := ∅;
                    body := {[ "bookId" := JStr "nonexistent";
                               "imprint" := JStr "i";
                               "status" := JStr "available" ]} |}) "bookId")
    sampleStore = None
  ∧ createBookCopy "0.4fzyo82mvyr"
      {| params_id := ""; query := ∅;
         body := {[ "bookId" := JStr "nonexistent"; "imprint" := JStr "i";
                    "status" := JStr "available" ]} |} sampleStore
    = (Error 400 "Bad Request" "Invalid book ID", sampleStore).
Proof.
  split; [by vm_compute|].
  destruct (C3_copy_validation_order "0.4fzyo82mvyr"
              {| params_id := ""; query := ∅;
                 body := {[ "bookId" := JStr "nonexistent";
                            "imprint" := JStr "i";
                            "status" := JStr "available" ]} |} sampleStore)
    as (_ & -> & _).
  by vm_compute.
Defined.

(** C4 as stated fails for the optional fields: the update handler passes
    a key for every field but the id, so a field that the request leaves
    out is overwritten with [undefined]. Here the stored Author has the
    last name Asimov, the request (which passes validation) has no
    [lastName], and the Author returned and stored has none any more. *)
Lemma C4_update_counterexample :
  validation KAuthor (body (authorRequest "auth1")) sampleStore = Passes
  ∧ body (authorRequest "auth1") !! "lastName" = None
  ∧ lastName <$> findAuthorById (JStr "auth1") sampleStore
    = Some (JStr "Asimov")
  ∧ lastName <$> payloadOf (updateAuthorById (authorRequest "auth1")
                              sampleStore).1
    = Some JUndefined
  ∧ lastName <$> findAuthorById (JStr "auth1")
                   (updateAuthorById (authorRequest "auth1") sampleStore).2
    = Some JUndefined.
Proof. split_and!; by vm_compute. Qed.

(** C4, amended. For every kind and every stored row (the first row
    with the targeted id): for every update request that passes
    validation, the update answers 200 with the full resulting row, which
    replaces that row; the row keeps its id, and every other field takes
    the value the request body has for it: a field that the body leaves
    out (an Author's lastName or deathDate, a Copy's dueBackDate) becomes
    undefined, it does not keep its stored value. At the storage level,
    whatever the request, the update with a partial payload of the kind
    replaces exactly the keys that the payload has and keeps every other
    field; the id is kept when the payload has no [id] key. *)
Theorem C4_update_replaces (k : Kind) (req : Request) (s : Store)
    (i : nat) (old : Entity) :
  firstIndex k (params_id req) s = Some (i, old) →
  (validation k (body req) s = Passes →
   ∃ s',
     route_put k req s
     = (Json 200 (fromBody k (entityId old) (body req)), s')
     ∧ table k s' = <[i := fromBody k (entityId old) (body req)]> (table k s)
     ∧ entityId (fromBody k (entityId old) (body req)) = entityId old
     ∧ ∀ key, key ∈ fieldsOf k →
         entityField (fromBody k (entityId old) (body req)) key
         = field (body req) key)
  ∧ (∀ p, partialKind p = k →
       ∃ s',
         storeUpdate (params_id req) p s = (Some (spread old p), s')
         ∧ table k s' = <[i := spread old p]> (table k s)
         ∧ (∀ key, entityField (spread old p) key
                   = default (entityField old key) (partialField p key))
         ∧ (partialId p = None → entityId (spread old p) = entityId old)).
Proof.
  intros Hidx.
  pose proof Hidx as (Hlook & _)%list_find_Some.
  assert (Hold : old ∈ table k s) by (by eapply list_elem_of_lookup_2).
  assert (Hstore : ∀ p, partialKind p = k →
    ∃ s', storeUpdate (params_id req) p s = (Some (spread old p), s')
          ∧ table k s' = <[i := spread old p]> (table k s)).
  { intros p <-. pose proof (storeUpdate_spec (params_id req) p s) as Hspec.
    rewrite Hidx in Hspec. destruct Hspec as (s' & ? & ? & _). eauto. }
  split.
  - intros Hvalid.
    destruct (Hstore (bodyPartial k (body req)) (partialKind_bodyPartial _ _))
      as (s' & Hupd & Htab).
    rewrite (spread_bodyPartial k _ s) in Hupd, Htab by done.
    exists s'. split_and!.
    + by rewrite route_put_spec, Hvalid, Hupd.
    + done.
    + apply entityId_fromBody.
    + intros key. apply entityField_fromBody.
  - intros p Hp. destruct (Hstore p Hp) as (s' & Hupd & Htab).
    exists s'. split_and!; [done..| |].
    + intros key. by eapply entityField_spread.
    + intros Hid. rewrite entityId_spread.
      destruct old, p; try done; by rewrite Hid.
Qed.

Lemma C4_update_replaces_witness :
  validation KAuthor (body (authorRequest "auth1")) sampleStore = Passes
  ∧ (∃ old, firstIndex KAuthor "auth1" sampleStore = Some (0, old))
  ∧ ∃ s',
      route_put KAuthor (authorRequest "auth1") sampleStore
      = (Json 200
           (EAuthor {| a_id := "auth1"; firstName := JStr "Isaac";
                       lastName := JUndefined;
                       birthDate := JStr "1920-01-02";
                       deathDate := JUndefined |}), s').
Proof.
  assert (Hv : validation KAuthor (body (authorRequest "auth1"))
                 sampleStore = Passes) by (vm_compute; reflexivity).
  assert (Hi : firstIndex KAuthor (params_id (authorRequest "auth1"))
                 sampleStore
               = Some (0, EAuthor {| a_id := "auth1";
                                     firstName := JStr "Isaac";
                                     lastName := JStr "Asimov";
                                     birthDate := JStr "1920-01-02";
                                     deathDate := JStr "1992-04-06" |}))
    by (vm_compute; reflexivity).
  split; [exact Hv|]. split; [eexists; exact Hi|].
  destruct (C4_update_replaces _ _ _ _ _ Hi) as [Hreq _].
  destruct (Hreq Hv) as (s' & Hput & _).
  exists s'. rewrite Hput. vm_compute. reflexivity.
Defined.

(** The storage update with a partial payload that has an [id] key
    rewrites the id of the row; no handler passes such a payload. *)
Example updateGenre_with_id_key :
  g_id <$> (updateGenre "gen1" {| pg_id := Some "gen9"; pg_name := None |}
              sampleStore).1
  = Some "gen9"
  ∧ name <$> (updateGenre "gen1" {| pg_id := Some "gen9"; pg_name := None |}
                sampleStore).1
    = Some (JStr "Science Fiction").
Proof. split; by vm_compute. Qed.

(** C5 as stated fails for the update handlers, which validate the body
    before they look the id up: an update of an id that no Book has, with
    an empty body, answers 400 and not 404. *)
Lemma C5_update_missing_counterexample :
  findBookById (JStr "nope") sampleStore = None
  ∧ updateBookById (idRequest "nope") sampleStore
    = (Error 400 "Bad Request"
         "title, authorIds, genreIds, isbn, and summary are required",
       sampleStore)
  ∧ (updateBookById (idRequest "nope") sampleStore).1
    ≠ Error 404 "Not Found" "Book not found".
Proof. split_and!; by vm_compute. Qed.

(** C5, amended. For every kind and every id that resolves to no stored
    row, an update request leaves the store as it is; it answers 404 when
    its body passes validation and 400 with the validation message when a
    check fails with a message (what is answered when the message of a
    Book update cannot be built is the matter of C2 and is left out
    here). The storage update itself returns null and leaves the store as
    it is for every partial payload of the kind. *)
Theorem C5_update_missing (k : Kind) (req : Request) (s : Store) :
  firstIndex k (params_id req) s = None →
  (route_put k req s).2 = s
  ∧ (validation k (body req) s = Passes →
     route_put k req s = (Error 404 "Not Found" (notFoundMessage k), s))
  ∧ (∀ message,
       validation k (body req) s = Fails message →
       route_put k req s = (Error 400 "Bad Request" message, s))
  ∧ ∀ p, partialKind p = k → storeUpdate (params_id req) p s = (None, s).
Proof.
  intros Hnone.
  assert (Hstore : ∀ p, partialKind p = k →
            storeUpdate (params_id req) p s = (None, s)).
  { intros p <-. pose proof (storeUpdate_spec (params_id req) p s) as Hspec.
    by rewrite Hnone in Hspec. }
  rewrite route_put_spec, Hstore by apply partialKind_bodyPartial.
  split_and!; [|intros ->|intros message ->|]; try done.
  by destruct (validation _ _ _).
Qed.

Lemma C5_update_missing_witness :
  firstIndex KBook "nope" sampleStore = None
  ∧ route_put KBook (bookRequest "nope" "Dune") sampleStore
    = (Error 404 "Not Found" "Book not found", sampleStore)
  ∧ route_put KBook (idRequest "nope") sampleStore
    = (Error 400 "Bad Request"
         "title, authorIds, genreIds, isbn, and summary are required",
       sampleStore).
Proof.
  assert (H : ∀ o, firstIndex KBook
                (params_id {| params_id := "nope"; query := ∅; body := o |})
                sampleStore = None)
    by (intros o; vm_compute; reflexivity).
  split; [exact (H ∅)|]. split.
  - destruct (C5_update_missing KBook (bookRequest "nope" "Dune") sampleStore
                (H _)) as (_ & Hpasses & _).
    apply Hpasses. vm_compute. reflexivity.
  - destruct (C5_update_missing KBook (idRequest "nope") sampleStore (H _))
      as (_ & _ & Hfails & _).
    apply Hfails. vm_compute. reflexivity.
Defined.

(** C6 as stated fails in two ways. The id is not checked against the
    stored rows: when the draw repeats, the new Book gets the id of an
    older one and the lookup of that id answers with the older Book. And
    for the draw 0 the generated id is the empty string. *)
Lemma C6_create_then_get_counterexample :
  validation KBook (body (bookRequest "" "Emma")) duneStore = Passes
  ∧ (createBook "0.4fzyo82mvyr" (bookRequest "" "Emma") duneStore).1
    = Json 201
        {| b_id := "4fzyo82mv"; title := JStr "Emma";
           authorIds := JArr [JStr "auth1"]; genreIds := JArr [JStr "gen1"];
           isbn := JStr "1"; summary := JStr "s" |}
  ∧ getBookById (idRequest "4fzyo82mv")
      (createBook "0.4fzyo82mvyr" (bookRequest "" "Emma") duneStore).2
    = Json 200
        {| b_id := "4fzyo82mv"; title := JStr "Dune";
           authorIds := JArr [JStr "auth1"]; genreIds := JArr [JStr "gen1"];
           isbn := JStr "1"; summary := JStr "s" |}
  ∧ payloadOf (getBookById (idRequest "4fzyo82mv")
                 (createBook "0.4fzyo82mvyr" (bookRequest "" "Emma") duneStore).2)
    ≠ payloadOf (createBook "0.4fzyo82mvyr" (bookRequest "" "Emma") duneStore).1
  ∧ validation KBook (body (bookRequest "" "Emma")) sampleStore = Passes
  ∧ b_id <$> payloadOf (createBook "0" (bookRequest "" "Emma") sampleStore).1
    = Some "".
Proof. split_and!; by vm_compute. Qed.

(** C6, amended. For every Book payload that passes validation (what
    this takes is [validation_book_Passes]), create answers 201 with the
    Book made of the payload's five fields and of the generated id, and
    appends it. A following get-by-id with the returned id yields the
    first stored Book with that id: the new Book provided no Book stored
    before had the same id (the generator does not look at the stored
    rows), the older Book otherwise. The id is non-empty provided the
    random draw is not 0 (its rendering has a digit after the point). *)
Theorem C6_create_then_get (rnd : string) (req : Request) (s : Store) :
  validation KBook (body req) s = Passes →
  ∃ newBook s',
    createBook rnd req s = (Json 201 newBook, s')
    ∧ newBook
      = {| b_id := generateId rnd; title := field (body req) "title";
           authorIds := field (body req) "authorIds";
           genreIds := field (body req) "genreIds";
           isbn := field (body req) "isbn";
           summary := field (body req) "summary" |}
    ∧ books s' = books s ++ [newBook]
    ∧ (∀ q o,
         getBookById {| params_id := b_id newBook; query := q; body := o |} s'
         = Json 200
             (default newBook (findBookById (JStr (generateId rnd)) s)))
    ∧ (findBookById (JStr (generateId rnd)) s = None →
       ∀ q o,
         getBookById {| params_id := b_id newBook; query := q; body := o |} s'
         = Json 200 newBook)
    ∧ (2 < String.length rnd → b_id newBook ≠ "").
Proof.
  intros Hvalid. rewrite createBook_spec, Hvalid. cbn zeta.
  eexists _, _. split; [reflexivity|]. split; [reflexivity|].
  split; [reflexivity|].
  assert (Hget : ∀ q o,
    getBookById {| params_id := generateId rnd; query := q; body := o |}
      (addBook
         {| b_id := generateId rnd; title := field (body req) "title";
            authorIds := field (body req) "authorIds";
            genreIds := field (body req) "genreIds";
            isbn := field (body req) "isbn";
            summary := field (body req) "summary" |} s)
    = Json 200
        (default
           {| b_id := generateId rnd; title := field (body req) "title";
              authorIds := field (body req) "authorIds";
              genreIds := field (body req) "genreIds";
              isbn := field (body req) "isbn";
              summary := field (body req) "summary" |}
           (findBookById (JStr (generateId rnd)) s))).
  { intros q o. unfold getBookById. cbn [params_id].
    rewrite !findBookById_string. cbn [addBook books set_books].
    destruct (list_find _ (books s)) as [[i older]|] eqn:Hold.
    - by erewrite list_find_app_l.
    - rewrite list_find_app_r by done. cbn.
      by rewrite decide_True by done. }
  split; [exact Hget|]. split; [|apply generateId_nonempty].
  intros Hfresh q o. cbn [b_id]. by rewrite Hget, Hfresh.
Qed.

Lemma C6_create_then_get_witness :
  validation KBook (body (bookRequest "" "Dune")) sampleStore = Passes
  ∧ findBookById (JStr (generateId "0.4fzyo82mvyr")) sampleStore = None
  ∧ ∃ newBook s',
      createBook "0.4fzyo82mvyr" (bookRequest "" "Dune") sampleStore
      = (Json 201 newBook, s')
      ∧ getBookById (idRequest (b_id newBook)) s' = Json 200 newBook
      ∧ b_id newBook ≠ "".
Proof.
  assert (Hv : validation KBook (body (bookRequest "" "Dune"))
                 sampleStore = Passes) by (vm_compute; reflexivity).
  assert (Hf : findBookById (JStr (generateId "0.4fzyo82mvyr")) sampleStore = None)
    by (vm_compute; reflexivity).
  split; [exact Hv|]. split; [exact Hf|].
  destruct (C6_create_then_get "0.4fzyo82mvyr" _ sampleStore Hv)
    as (newBook & s' & Hc & _ & _ & _ & Hget & Hne).
  exists newBook, s'. split; [exact Hc|]. split; [by apply Hget|].
  apply Hne. vm_compute. lia.
Defined.




(** C8 as stated fails, because the generator does not look at the stored
    rows: the store reached from the empty one by creating two Genres
    from the same draw has two Genres with the same id. *)
Lemma C8_unique_ids_counterexample :
  reachable emptyStore twoGenresOneId
  ∧ g_id <$> genres twoGenresOneId = ["4fzyo82mv"; "4fzyo82mv"]
  ∧ ¬ uniqueIds twoGenresOneId.
Proof.
  split; [do 2 apply reachable_step; apply reachable_init|].
  split; [by vm_compute|].
  intros Hu. specialize (Hu KGenre). vm_compute in Hu.
  apply NoDup_cons in Hu as [Hnotin _]. apply Hnotin. set_solver.
Qed.

(** C8, amended. Along every run of the handlers that starts in a store
    with unique ids (the empty store, the sample store) and in which each
    creation draws an id that no row of its table has yet, ids stay
    unique within each kind. In every store and whatever the draws, no
    operation changes the id of a stored row: an update keeps the id of
    every row, a delete only drops rows, a create only appends one. *)
Theorem C8_unique_ids (s0 s : Store) :
  (uniqueIds s0 → reachableFresh s0 s → uniqueIds s)
  ∧ ∀ op k,
      match op with
      | Put _ _ => entityId <$> table k (exec op s) = entityId <$> table k s
      | Delete _ _ => table k (exec op s) `sublist_of` table k s
      | Post _ _ _ => table k s `prefix_of` table k (exec op s)
      end.
Proof.
  split; [|intros op k; apply exec_ids].
  intros H0 Hreach.
  induction Hreach as [|s op Hreach IH Hfresh]; [done|].
  intros k. specialize (IH k). pose proof (exec_ids op s k) as Hids.
  destruct op as [k0 rnd req|k0 req|k0 req].
  - clear Hids. cbn [exec freshDraw] in *. rewrite route_post_spec.
    destruct (validation _ _ _); [done|done|]. specialize (Hfresh eq_refl).
    cbn [snd]. rewrite table_storeAdd. case_decide as Hk; [|done].
    subst. rewrite fmap_app. apply NoDup_app. split_and!; [done| |].
    + cbn. rewrite entityId_fromBody. intros x Hx Hin.
      apply list_elem_of_singleton in Hin as ->. done.
    + apply NoDup_singleton.
  - by rewrite Hids.
  - eapply sublist_NoDup; [exact IH|]. by apply fmap_sublist.
Qed.

Lemma C8_unique_ids_witness :
  uniqueIds emptyStore
  ∧ reachableFresh emptyStore
      (exec (Post KGenre "0.4fzyo82mvyr" (genreRequest "" "Poetry")) emptyStore)
  ∧ uniqueIds
      (exec (Post KGenre "0.4fzyo82mvyr" (genreRequest "" "Poetry")) emptyStore).
Proof.
  assert (Hr : reachableFresh emptyStore
      (exec (Post KGenre "0.4fzyo82mvyr" (genreRequest "" "Poetry")) emptyStore)).
  { apply reachableFresh_step; [apply reachableFresh_init|].
    intros _. vm_compute. set_solver. }
  split; [exact uniqueIds_emptyStore|]. split; [exact Hr|].
  exact (proj1 (C8_unique_ids _ _) uniqueIds_emptyStore Hr).
Defined.

(** C9. For every kind, a create or update request in which a required
    field has a falsy value (the empty string, 0, false, null: see
    [truthy_false_iff]) is answered 400 with the required-fields message,
    leaves the store as it is, and is treated exactly as the request
    without that field: same answer, same store. *)
Theorem C9_falsy_required (k : Kind) (key rnd : string) (req : Request)
    (s : Store) :
  key ∈ requiredFields k →
  truthy (field (body req) key) = false →
  route_post k rnd req s = (Error 400 "Bad Request" (requiredMessage k), s)
  ∧ route_put k req s = (Error 400 "Bad Request" (requiredMessage k), s)
  ∧ route_post k rnd req s = route_post k rnd (without key req) s
  ∧ route_put k req s = route_put k (without key req) s.
Proof.
  intros Hkey Hfalsy.
  pose proof (validation_required k (body req) s key Hkey Hfalsy) as H1.
  pose proof (validation_required k (body (without key req)) s key Hkey)
    as H2.
  rewrite field_without in H2. specialize (H2 eq_refl).
  by rewrite !route_post_spec, !route_put_spec, H1, H2.
Qed.

Lemma C9_falsy_required_witness :
  "name" ∈ requiredFields KGenre
  ∧ truthy (field (body (genreRequest "gen1" "")) "name") = false
  ∧ route_post KGenre "0.4fzyo82mvyr" (genreRequest "gen1" "") sampleStore
    = (Error 400 "Bad Request" "name is required", sampleStore)
  ∧ route_put KGenre (genreRequest "gen1" "") sampleStore
    = (Error 400 "Bad Request" "name is required", sampleStore).
Proof.
  assert (Hk : "name" ∈ requiredFields KGenre) by (vm_compute; set_solver).
  assert (Hf : truthy (field (body (genreRequest "gen1" "")) "name") = false)
    by (vm_compute; reflexivity).
  split; [exact Hk|]. split; [exact Hf|].
  destruct (C9_falsy_required KGenre "name" "0.4fzyo82mvyr" _ sampleStore Hk Hf)
    as (Hpost & Hput & _).
  split; [exact Hpost|exact Hput].
Defined.

(** Present but empty, zero or false. *)
Example createAuthor_empty_firstName :
  createAuthor "0.4fzyo82mvyr"
    {| params_id := ""; query := ∅;
       body := {[ "firstName" := JStr ""; "birthDate" := JStr "1980-01-01" ]} |}
    emptyStore
  = (Error 400 "Bad Request" "firstName and birthDate are required",
     emptyStore).
Proof. by vm_compute. Qed.

Example createBookCopy_zero_imprint :
  createBookCopy "0.4fzyo82mvyr"
    {| params_id := ""; query := ∅;
       body := {[ "bookId" := JStr "book1";
                  "imprint" := JNum {| num_falsy := true; num_text := "0" |};
                  "status" := JStr "available" ]} |}
    sampleStore
  = (Error 400 "Bad Request" "bookId, imprint, and status are required",
     sampleStore).
Proof. by vm_compute. Qed.

Example updateBookById_false_title :
  updateBookById
    {| params_id := "book1"; query := ∅;
       body := {[ "title" := JBool false;
                  "authorIds" := JArr [JStr "auth1"];
                  "genreIds" := JArr [JStr "gen1"]; "isbn" := JStr "1";
                  "summary" := JStr "s" ]} |}
    sampleStore
  = (Error 400 "Bad Request"
       "title, authorIds, genreIds, isbn, and summary are required",
     sampleStore).
Proof. by vm_compute. Qed.

(** C10. Every update call, whatever its outcome, at the request level
    ([PUT] of any kind) and at the storage level (any partial payload),
    keeps the number of rows of every table, leaves the tables of the
    other kinds as they are, and leaves every row of the targeted table
    as it is except the first row whose id is the targeted id. *)
Theorem C10_update_frame (k : Kind) (req : Request) (id : string)
    (p : Partial) (s : Store) :
  ((∀ k', length (table k' (route_put k req s).2) = length (table k' s))
   ∧ (∀ k', k' ≠ k → table k' (route_put k req s).2 = table k' s)
   ∧ (∀ j, fst <$> firstIndex k (params_id req) s ≠ Some j →
           table k (route_put k req s).2 !! j = table k s !! j))
  ∧ ((∀ k', length (table k' (storeUpdate id p s).2) = length (table k' s))
     ∧ (∀ k', k' ≠ partialKind p →
              table k' (storeUpdate id p s).2 = table k' s)
     ∧ (∀ j, fst <$> firstIndex (partialKind p) id s ≠ Some j →
             table (partialKind p) (storeUpdate id p s).2 !! j
             = table (partialKind p) s !! j)).
Proof.
  split; [|apply storeUpdate_frame].
  rewrite route_put_spec. destruct (validation _ _ _); [done|done|].
  pose proof (storeUpdate_frame (params_id req) (bodyPartial k (body req)) s)
    as Hframe.
  rewrite partialKind_bodyPartial in Hframe.
  by destruct (storeUpdate _ _ s) as [[?|] ?].
Qed.

(** * Further properties of the store and of the handlers *)

(** ** Searching a list that was updated or spliced *)

Section find_facts.
Context {A : Type} (P : A → Prop) `{∀ x, Decision (P x)}.

Lemma find_insert_same (l : list A) i x y :
  list_find P l = Some (i, x) → P y →
  list_find P (<[i:=y]> l) = Some (i, y).
Proof.
  intros (Hi & Hx & Hmin)%list_find_Some Hy. apply list_find_Some.
  split_and!; [|done|].
  - apply list_lookup_insert_eq. by eapply lookup_lt_Some.
  - intros j z Hj Hlt. rewrite list_lookup_insert_ne in Hj by lia. eauto.
Qed.

Lemma find_insert_other (l : list A) i x y :
  l !! i = Some x → ¬ P x → ¬ P y →
  list_find P (<[i:=y]> l) = list_find P l.
Proof.
  revert i. induction l as [|z l IH]; intros [|i] Hi Hx Hy; try done.
  - simpl in Hi. injection Hi as ->. simpl.
    by rewrite !decide_False by done.
  - simpl in Hi |- *. destruct (decide (P z)); [done|]. by rewrite (IH i).
Qed.

Lemma find_delete_other (l : list A) i x :
  l !! i = Some x → ¬ P x →
  snd <$> list_find P (delete i l) = snd <$> list_find P l.
Proof.
  revert i. induction l as [|z l IH]; intros [|i] Hi Hx; try done.
  - simpl in Hi. injection Hi as ->. simpl. rewrite decide_False by done.
    by destruct (list_find P l) as [[??]|].
  - simpl in Hi |- *. destruct (decide (P z)); [done|].
    specialize (IH i Hi Hx).
    by destruct (list_find P (delete i l)) as [[??]|],
      (list_find P l) as [[??]|].
Qed.
End find_facts.

Lemma find_strictEq {A} (f : A → string) (v : JsVal) (l : list A) :
  list_find (λ x, strictEq v (f x)) l
  = match v with
    | JStr id => list_find (λ x, f x = id) l
    | _ => None
    end.
Proof.
  assert (Hno : (∀ x, ¬ strictEq v (f x)) →
                list_find (λ x, strictEq v (f x)) l = None).
  { intros Hv. apply list_find_None, Forall_forall. intros x _. apply Hv. }
  destruct v as [| | | |id| |]; try (by apply Hno).
  apply list_find_ext. intros x. unfold strictEq.
  split; [by intros [= ->]|by intros ->].
Qed.

(** A lookup by kind is the first row of the table with that string id. *)
Lemma storeFind_firstIndex k v s :
  storeFind k v s
  = match v with
    | JStr id => snd <$> firstIndex k id s
    | _ => None
    end.
Proof.
  destruct k; cbn [storeFind];
    unfold findAuthorById, findGenreById, findBookById, findBookCopyById;
    rewrite find_strictEq; destruct v; try done; by_kind_find;
    by destruct (list_find _ _) as [[??]|].
Qed.

Lemma route_get_storeFind k req s :
  route_get k req s
  = match storeFind k (JStr (params_id req)) s with
    | Some e => Json 200 e
    | None => Error 404 "Not Found" (notFoundMessage k)
    end.
Proof.
  rewrite route_get_firstIndex, storeFind_firstIndex.
  by destruct (firstIndex _ _ _) as [[??]|].
Qed.

Lemma table_storeAdd_kind e s k :
  table k (storeAdd e s)
  = if decide (k = entityKind e) then table k s ++ [e] else table k s.
Proof. destruct e, k; cbn; by rewrite ?fmap_app. Qed.

(** ** Lookups *)

(** X1. A lookup answers with the first row of the table whose id is the
    given string, and with nothing when no row has it; a value that is
    not a string (a number, null, an array) resolves to no row. *)
Theorem storeFind_first_match (k : Kind) (v : JsVal) (s : Store) :
  match storeFind k v s with
  | Some e =>
      ∃ i, v = JStr (entityId e) ∧ table k s !! i = Some e
           ∧ ∀ j e', table k s !! j = Some e' → j < i →
                     entityId e' ≠ entityId e
  | None => ∀ e, e ∈ table k s → v ≠ JStr (entityId e)
  end.
Proof.
  rewrite storeFind_firstIndex. unfold firstIndex.
  destruct v as [| | | |id| |]; try done.
  destruct (list_find _ _) as [[i e]|] eqn:Hfind; cbn.
  - apply list_find_Some in Hfind as (Hi & <- & Hmin). exists i. eauto.
  - intros e He [= ->]. apply list_find_None in Hfind.
    by eapply Forall_forall in Hfind.
Qed.

(** X2. Adding a row never changes the answer of a lookup that found a
    row before; a lookup that found nothing finds the new row exactly
    when it asks for the new row's kind and id. *)
Theorem storeFind_storeAdd (k : Kind) (v : JsVal) (e : Entity) (s : Store) :
  storeFind k v (storeAdd e s)
  = match storeFind k v s with
    | Some r => Some r
    | None =>
        if decide (k = entityKind e ∧ strictEq v (entityId e)) then Some e
        else None
    end.
Proof.
  rewrite !storeFind_firstIndex. unfold firstIndex.
  rewrite table_storeAdd_kind.
  destruct v as [| | | |id| |];
    try (rewrite decide_False; [done|by intros [_ ?]]).
  destruct (decide (k = entityKind e)) as [->|Hk].
  - destruct (list_find _ (table _ s)) as [[i r]|] eqn:Hfind.
    + by erewrite list_find_app_l.
    + rewrite list_find_app_r by done. cbn. unfold strictEq.
      destruct (decide (entityId e = id)) as [->|Hne].
      * by rewrite decide_True.
      * rewrite decide_False; [done|]. intros [_ [= ->]]. done.
  - destruct (list_find _ (table k s)) as [[i r]|]; [done|]. cbn.
    rewrite decide_False; [done|]. by intros [? _].
Qed.

(** X3. After an update that answered 200, a get of the same id answers
    200 with the row that the update returned. *)
Theorem get_after_put (k : Kind) (req : Request) (s s' : Store)
    (e : Entity) :
  route_put k req s = (Json 200 e, s') →
  route_get k req s' = Json 200 e.
Proof.
  rewrite route_put_spec. destruct (validation _ _ _); [done|done|].
  pose proof (storeUpdate_spec (params_id req) (bodyPartial k (body req)) s)
    as Hspec.
  rewrite partialKind_bodyPartial in Hspec.
  destruct (firstIndex k (params_id req) s) as [[i old]|] eqn:Hidx.
  - destruct Hspec as (s1 & -> & Htab & _). intros [= <- <-].
    rewrite route_get_firstIndex. unfold firstIndex in *. rewrite Htab.
    pose proof Hidx as (Hlook & Hid & _)%list_find_Some.
    erewrite find_insert_same; [done|exact Hidx|].
    rewrite (spread_bodyPartial k _ s) by (by eapply list_elem_of_lookup_2).
    by rewrite entityId_fromBody.
  - by rewrite Hspec.
Qed.

Lemma get_after_put_witness :
  route_put KGenre (genreRequest "gen1" "Space Opera") sampleStore
  = (Json 200 (EGenre {| g_id := "gen1"; name := JStr "Space Opera" |}),
     (route_put KGenre (genreRequest "gen1" "Space Opera") sampleStore).2)
  ∧ route_get KGenre (genreRequest "gen1" "Space Opera")
      (route_put KGenre (genreRequest "gen1" "Space Opera") sampleStore).2
    = Json 200 (EGenre {| g_id := "gen1"; name := JStr "Space Opera" |}).
Proof.
  assert (H : route_put KGenre (genreRequest "gen1" "Space Opera") sampleStore
    = (Json 200 (EGenre {| g_id := "gen1"; name := JStr "Space Opera" |}),
       (route_put KGenre (genreRequest "gen1" "Space Opera") sampleStore).2))
    by (vm_compute; reflexivity).
  split; [exact H|]. exact (get_after_put _ _ _ _ _ H).
Defined.

(** ** Stores as four tables *)

#[global] Instance EAuthor_inj : Inj (=) (=) EAuthor.
Proof. by intros ?? [= ->]. Qed.
#[global] Instance EGenre_inj : Inj (=) (=) EGenre.
Proof. by intros ?? [= ->]. Qed.
#[global] Instance EBook_inj : Inj (=) (=) EBook.
Proof. by intros ?? [= ->]. Qed.
#[global] Instance ECopy_inj : Inj (=) (=) ECopy.
Proof. by intros ?? [= ->]. Qed.

Lemma table_eq k s1 s2 :
  table k s1 = table k s2 →
  match k with
  | KAuthor => authors s1 = authors s2
  | KGenre => genres s1 = genres s2
  | KBook => books s1 = books s2
  | KCopy => bookCopies s1 = bookCopies s2
  end.
Proof. destruct k; cbn; apply (inj (fmap _)). Qed.

Lemma store_eq s1 s2 : (∀ k, table k s1 = table k s2) → s1 = s2.
Proof.
  intros Heq.
  pose proof (table_eq KAuthor _ _ (Heq KAuthor)) as Ha.
  pose proof (table_eq KGenre _ _ (Heq KGenre)) as Hg.
  pose proof (table_eq KBook _ _ (Heq KBook)) as Hb.
  pose proof (table_eq KCopy _ _ (Heq KCopy)) as Hc.
  destruct s1, s2; cbn in *; congruence.
Qed.

(** The validation of a kind does not read the table of that kind. *)
Lemma validation_frame k o s s' :
  (∀ k', k' ≠ k → table k' s' = table k' s) →
  validation k o s' = validation k o s.
Proof.
  intros Hother.
  destruct k; unfold validation;
    cbn [checks firstVerdict checkVerdict checkError]; try done.
  - pose proof (table_eq KAuthor _ _ (Hother KAuthor ltac:(done))) as Ha.
    pose proof (table_eq KGenre _ _ (Hother KGenre ltac:(done))) as Hg.
    cbn in Ha, Hg.
    unfold unresolved, findAuthorById, findGenreById. by rewrite Ha, Hg.
  - pose proof (table_eq KBook _ _ (Hother KBook ltac:(done))) as Hb.
    cbn in Hb. unfold findBookById. by rewrite Hb.
Qed.

(** ** What an operation leaves alone *)

(** X4. An update or a delete of one id leaves the answer of a get of
    every other id of the same kind as it was. *)
Theorem get_other_id (k : Kind) (req req' : Request) (s : Store) :
  params_id req' ≠ params_id req →
  route_get k req' (route_put k req s).2 = route_get k req' s
  ∧ route_get k req' (route_delete k req s).2 = route_get k req' s.
Proof.
  intros Hne. rewrite !route_get_storeFind, !storeFind_firstIndex.
  split.
  - rewrite route_put_spec. destruct (validation _ _ _); [done|done|].
    pose proof (storeUpdate_spec (params_id req) (bodyPartial k (body req)) s)
      as Hspec.
    rewrite partialKind_bodyPartial in Hspec.
    destruct (firstIndex k (params_id req) s) as [[i old]|] eqn:Hidx;
      [|by rewrite Hspec].
    destruct Hspec as (s1 & -> & Htab & _). cbn [snd].
    unfold firstIndex in *. rewrite Htab.
    pose proof Hidx as (Hlook & Hid & _)%list_find_Some.
    erewrite find_insert_other; [done|exact Hlook|congruence|].
    rewrite (spread_bodyPartial k _ s) by (by eapply list_elem_of_lookup_2).
    rewrite entityId_fromBody. congruence.
  - rewrite route_delete_spec. cbn [snd].
    pose proof (storeDelete_spec k (params_id req) s) as Hspec.
    destruct (firstIndex k (params_id req) s) as [[i old]|] eqn:Hidx;
      [|by rewrite Hspec].
    destruct Hspec as (s1 & -> & Htab & _). cbn [snd].
    unfold firstIndex in *. rewrite Htab.
    pose proof Hidx as (Hlook & Hid & _)%list_find_Some.
    erewrite find_delete_other; [done|exact Hlook|congruence].
Qed.

Lemma get_other_id_witness :
  params_id (idRequest "auth2") ≠ params_id (idRequest "auth1")
  ∧ route_get KAuthor (idRequest "auth2")
      (route_delete KAuthor (idRequest "auth1") sampleStore).2
    = route_get KAuthor (idRequest "auth2") sampleStore.
Proof.
  assert (H : params_id (idRequest "auth2") ≠ params_id (idRequest "auth1"))
    by (by vm_compute).
  split; [exact H|].
  exact (proj2 (get_other_id KAuthor _ _ sampleStore H)).
Defined.

(** X5. A delete reaches no further than its cascade: deleting an Author,
    a Genre or a Copy leaves every other table as it is (the Books that
    reference the Author or the Genre are neither removed nor changed),
    and deleting a Book leaves Authors and Genres as they are. In every
    table the rows that remain are the old ones, in their order. *)
Theorem delete_frame (k : Kind) (req : Request) (s : Store) :
  ∀ k',
    (k' ≠ k → (k = KBook → k' ≠ KCopy) →
     table k' (route_delete k req s).2 = table k' s)
    ∧ table k' (route_delete k req s).2 `sublist_of` table k' s.
Proof.
  intros k'. split; [|apply (exec_ids (Delete k req))].
  intros Hne Hcascade. rewrite route_delete_spec. cbn [snd].
  pose proof (storeDelete_spec k (params_id req) s) as Hspec.
  destruct (firstIndex k (params_id req) s) as [[i old]|];
    [|by rewrite Hspec].
  destruct Hspec as (s1 & -> & _ & Hcopies & Hother). cbn [snd].
  destruct (decide (k' = KCopy)) as [->|Hnc]; [|by apply Hother].
  cbn [table]. rewrite Hcopies.
  rewrite decide_False by (intros ->; by apply Hcascade).
  by rewrite decide_False by done.
Qed.

(** X6. A delete of an id that no row of the table has answers 404 and
    leaves the store as it is. *)
Theorem delete_missing (k : Kind) (req : Request) (s : Store) :
  firstIndex k (params_id req) s = None →
  route_delete k req s = (Error 404 "Not Found" (notFoundMessage k), s)
  ∧ storeDelete k (params_id req) s = (false, s).
Proof.
  intros Hnone. pose proof (storeDelete_spec k (params_id req) s) as Hspec.
  rewrite Hnone in Hspec. by rewrite route_delete_spec, Hspec.
Qed.

Lemma delete_missing_witness :
  firstIndex KCopy (params_id (idRequest "copy9")) sampleStore = None
  ∧ route_delete KCopy (idRequest "copy9") sampleStore
    = (Error 404 "Not Found" "Book copy not found", sampleStore).
Proof.
  assert (H : firstIndex KCopy (params_id (idRequest "copy9")) sampleStore
              = None) by (vm_compute; reflexivity).
  split; [exact H|]. exact (proj1 (delete_missing _ _ _ H)).
Defined.

(** X7. A create either answers 400 with a message and leaves the store
    as it is, or (a Book create only, when the message cannot be built)
    throws after the status was set to 400 and leaves the store as it is,
    or answers 201 with a row of its kind whose id is the generated one,
    appended at the end of its table; the rows that were there and the
    other tables are as before. *)
Theorem post_frame (k : Kind) (rnd : string) (req : Request) (s : Store) :
  (∃ message, route_post k rnd req s = (Error 400 "Bad Request" message, s))
  ∨ (k = KBook ∧ route_post k rnd req s = (Throws 400, s))
  ∨ (∃ e s',
       route_post k rnd req s = (Json 201 e, s')
       ∧ entityKind e = k ∧ entityId e = generateId rnd
       ∧ table k s' = table k s ++ [e]
       ∧ ∀ k', k' ≠ k → table k' s' = table k' s).
Proof.
  rewrite route_post_spec.
  destruct (validation _ _ _) eqn:Hvalid; [eauto| |].
  { right; left. split; [by eapply validation_unprinted|done]. }
  do 2 right. eexists _, _. split; [reflexivity|]. split_and!.
  - by destruct k.
  - apply entityId_fromBody.
  - by rewrite table_storeAdd, decide_True.
  - intros k' Hne. by rewrite table_storeAdd, decide_False.
Qed.

(** X8. Sending the same update twice changes nothing more than sending
    it once: the second update gives the same answer and leaves the store
    as the first one left it. *)
Theorem put_idempotent (k : Kind) (req : Request) (s : Store) :
  route_put k req (route_put k req s).2 = route_put k req s.
Proof.
  rewrite (route_put_spec k req s).
  destruct (validation k (body req) s) eqn:Hvalid.
  1, 2: cbn [snd]; by rewrite route_put_spec, Hvalid.
  pose proof (storeUpdate_spec (params_id req) (bodyPartial k (body req)) s)
    as Hspec.
  rewrite partialKind_bodyPartial in Hspec.
  destruct (firstIndex k (params_id req) s) as [[i old]|] eqn:Hidx.
  - destruct Hspec as (s1 & -> & Htab & Hother). cbn [snd].
    pose proof Hidx as (Hlook & Hid & _)%list_find_Some.
    assert (Hnew : spread old (bodyPartial k (body req))
                   = fromBody k (params_id req) (body req)).
    { rewrite (spread_bodyPartial k _ s), Hid; [done|].
      by eapply list_elem_of_lookup_2. }
    rewrite Hnew in Htab |- *.
    rewrite route_put_spec, (validation_frame k _ s s1), Hvalid by done.
    pose proof (storeUpdate_spec (params_id req) (bodyPartial k (body req))
                  s1) as Hspec1.
    rewrite partialKind_bodyPartial in Hspec1.
    assert (Hidx1 : firstIndex k (params_id req) s1
                    = Some (i, fromBody k (params_id req) (body req))).
    { unfold firstIndex in *. rewrite Htab.
      eapply find_insert_same; [exact Hidx|apply entityId_fromBody]. }
    rewrite Hidx1 in Hspec1. destruct Hspec1 as (s2 & -> & Htab2 & Hother2).
    assert (Hsame : spread (fromBody k (params_id req) (body req))
                      (bodyPartial k (body req))
                    = fromBody k (params_id req) (body req)).
    { rewrite (spread_bodyPartial k _ s1), entityId_fromBody; [done|].
      rewrite Htab. eapply list_elem_of_lookup_2.
      apply list_lookup_insert_eq. by eapply lookup_lt_Some. }
    rewrite Hsame in Htab2 |- *. f_equal. apply store_eq. intros k'.
    destruct (decide (k' = k)) as [->|Hne]; [|by apply Hother2].
    by rewrite Htab2, Htab, list_insert_insert_eq.
  - rewrite Hspec. cbn [snd]. by rewrite route_put_spec, Hvalid, Hspec.
Qed.

(** ** What a create accepts *)

Lemma validation_Passes_messages k o s :
  k ≠ KBook →
  validation k o s = Passes
  ↔ firstFailure (checkError k o s) (checks k) = None.
Proof.
  intros Hk. rewrite validation_messages by done.
  by destruct (firstFailure _ _).
Qed.

Lemma validation_copy_Passes o s :
  validation KCopy o s = Passes ↔
  Forall (λ key, truthy (field o key) = true) (requiredFields KCopy)
  ∧ is_Some (findBookById (field o "bookId") s)
  ∧ ∃ label, field o "status" = JStr label ∧ label ∈ validStatuses.
Proof.
  rewrite validation_Passes_messages by done. cbn [checks firstFailure].
  pose proof (checkError_required KCopy o s) as Hreq.
  destruct (checkError KCopy o s RequiredFields);
    [split; [done|by intros [?%Hreq _]]|].
  assert (Hall : Forall (λ key, truthy (field o key) = true)
                   (requiredFields KCopy)) by (by apply Hreq).
  cbn [checkError]. destruct (findBookById _ s) as [b|].
  - unfold includes.
    destruct (field o "status") as [| | | |label| |];
      try (split; [done|by intros (_ & _ & ? & ? & _)]).
    case_bool_decide as Hin.
    + split; [eauto|done].
    + split; [done|]. intros (_ & _ & ? & [= <-] & ?). done.
  - split; [done|]. by intros (_ & [? ?] & _).
Qed.

Lemma validation_simple_Passes k o s :
  k = KAuthor ∨ k = KGenre →
  validation k o s = Passes ↔
  Forall (λ key, truthy (field o key) = true) (requiredFields k).
Proof.
  intros Hk. rewrite <- (checkError_required k o s).
  rewrite validation_Passes_messages by (by destruct Hk as [-> | ->]).
  destruct Hk as [-> | ->]; cbn [checks firstFailure];
    by destruct (checkError _ o s RequiredFields).
Qed.

(** X9. [createBook] answers 201 exactly when title, authorIds,
    genreIds, isbn and summary are truthy, authorIds and genreIds are
    non-empty arrays, and every element of the two arrays is the id of a
    stored Author, resp. Genre; otherwise it leaves the store as it is,
    and either answers 400 with a message or throws after the status was
    set to 400. *)
Theorem createBook_accepts (rnd : string) (req : Request) (s : Store) :
  ((∃ newBook s', createBook rnd req s = (Json 201 newBook, s')) ↔
   Forall (λ key, truthy (field (body req) key) = true)
     ["title"; "authorIds"; "genreIds"; "isbn"; "summary"]
   ∧ (∃ x l, field (body req) "authorIds" = JArr (x :: l))
   ∧ (∃ x l, field (body req) "genreIds" = JArr (x :: l))
   ∧ Forall (λ id, is_Some (findAuthorById id s))
       (items (field (body req) "authorIds"))
   ∧ Forall (λ id, is_Some (findGenreById id s))
       (items (field (body req) "genreIds")))
  ∧ ((∃ newBook s', createBook rnd req s = (Json 201 newBook, s'))
     ∨ (∃ message,
          createBook rnd req s = (Error 400 "Bad Request" message, s))
     ∨ createBook rnd req s = (Throws 400, s)).
Proof.
  rewrite <- !nonEmptyArray_true.
  rewrite <- (validation_book_Passes (body req) s), createBook_spec.
  destruct (validation _ _ _); split; eauto.
  - split; [by intros (? & ? & ?)|done].
  - split; [by intros (? & ? & ?)|done].
  - split; [done|eauto].
Qed.

(** X10. [createBookCopy] answers 201 exactly when bookId, imprint and
    status are truthy, bookId is the id of a stored Book and status is
    one of the four status strings; otherwise it answers 400 and leaves
    the store as it is. *)
Theorem createBookCopy_accepts (rnd : string) (req : Request) (s : Store) :
  ((∃ newCopy s', createBookCopy rnd req s = (Json 201 newCopy, s')) ↔
   Forall (λ key, truthy (field (body req) key) = true)
     ["bookId"; "imprint"; "status"]
   ∧ is_Some (findBookById (field (body req) "bookId") s)
   ∧ ∃ label,
       field (body req) "status" = JStr label
       ∧ label ∈ ["available"; "unavailable"; "can be checkout";
                  "checked out"])
  ∧ ((∃ newCopy s', createBookCopy rnd req s = (Json 201 newCopy, s'))
     ∨ ∃ message,
         createBookCopy rnd req s = (Error 400 "Bad Request" message, s)).
Proof.
  pose proof (validation_copy_Passes (body req) s) as Hiff.
  cbn [requiredFields] in Hiff. unfold validStatuses in Hiff.
  rewrite <- Hiff, createBookCopy_spec.
  destruct (validation _ _ _) eqn:Hvalid; split; eauto.
  - split; [by intros (? & ? & ?)|done].
  - by apply validation_unprinted in Hvalid.
  - by apply validation_unprinted in Hvalid.
  - split; [done|eauto].
Qed.

(** X11. [createAuthor] and [createGenre] look at nothing but the
    required fields: in every store, an Author is created exactly when
    firstName and birthDate are truthy and a Genre exactly when name is
    truthy, whatever rows the store already has (an equal name or an
    equal id included). *)
Theorem createAuthor_createGenre_accept (rnd : string) (req : Request)
    (s : Store) :
  ((∃ newAuthor s', createAuthor rnd req s = (Json 201 newAuthor, s')) ↔
   truthy (field (body req) "firstName") = true
   ∧ truthy (field (body req) "birthDate") = true)
  ∧ ((∃ newGenre s', createGenre rnd req s = (Json 201 newGenre, s')) ↔
     truthy (field (body req) "name") = true).
Proof.
  rewrite createAuthor_spec, createGenre_spec.
  pose proof (validation_simple_Passes KAuthor (body req) s
                (or_introl eq_refl)) as Ha.
  pose proof (validation_simple_Passes KGenre (body req) s
                (or_intror eq_refl)) as Hg.
  cbn [requiredFields] in Ha, Hg.
  split.
  - destruct (validation KAuthor _ _) as [message| |].
    + split; [by intros (? & ? & ?)|]. intros [? ?].
      by assert (Fails message = Passes) by (apply Ha; by repeat constructor).
    + split; [by intros (? & ? & ?)|]. intros [? ?].
      by assert (FailsUnprinted = Passes)
        by (apply Ha; by repeat constructor).
    + split; [|eauto]. intros _. destruct Ha as [Ha _].
      specialize (Ha eq_refl). apply Forall_cons in Ha as [? Ha].
      by apply Forall_cons in Ha as [? _].
  - destruct (validation KGenre _ _) as [message| |].
    + split; [by intros (? & ? & ?)|]. intros ?.
      by assert (Fails message = Passes) by (apply Hg; by repeat constructor).
    + split; [by intros (? & ? & ?)|]. intros ?.
      by assert (FailsUnprinted = Passes)
        by (apply Hg; by repeat constructor).
    + split; [|eauto]. intros _. destruct Hg as [Hg _].
      specialize (Hg eq_refl). by apply Forall_cons in Hg as [? _].
Qed.

(** ** References between the tables *)

Lemma find_is_Some {A} (f : A → string) (v : JsVal) (l : list A) :
  is_Some (snd <$> list_find (λ x, strictEq v (f x)) l) ↔
  ∃ id, v = JStr id ∧ id ∈ f <$> l.
Proof.
  rewrite find_strictEq.
  destruct v as [| | | |id| |];
    try (split; [by intros [? ?]|by intros (? & ? & _)]).
  split.
  - intros [b Hb]. exists id. split; [done|].
    destruct (list_find _ l) as [[i b']|] eqn:Hfind; [|done].
    apply list_find_Some in Hfind as (Hi & <- & _).
    apply list_elem_of_fmap. exists b'. split; [done|].
    by eapply list_elem_of_lookup_2.
  - intros (? & [= <-] & (b & -> & Hb)%list_elem_of_fmap).
    destruct (list_find_elem_of (λ x, f x = f b) l b)
      as [[i b'] ->]; [done..|]. by eexists.
Qed.

Lemma findBookById_is_Some v s :
  is_Some (findBookById v s) ↔ ∃ id, v = JStr id ∧ id ∈ b_id <$> books s.
Proof. apply find_is_Some. Qed.

Lemma findAuthorById_is_Some v s :
  is_Some (findAuthorById v s) ↔ ∃ id, v = JStr id ∧ id ∈ a_id <$> authors s.
Proof. apply find_is_Some. Qed.

Lemma findGenreById_is_Some v s :
  is_Some (findGenreById v s) ↔ ∃ id, v = JStr id ∧ id ∈ g_id <$> genres s.
Proof. apply find_is_Some. Qed.

(** The copies resolve in [s'] when each of them either was a copy of
    [s] whose Book id is still there, or resolves in [s'] by itself. *)
Lemma copiesResolve_step s s' :
  copiesResolve s →
  (∀ copy, copy ∈ bookCopies s' →
     (copy ∈ bookCopies s
      ∧ ∀ id, bookId copy = JStr id → id ∈ b_id <$> books s →
              id ∈ b_id <$> books s')
     ∨ is_Some (findBookById (bookId copy) s')) →
  copiesResolve s'.
Proof.
  unfold copiesResolve. rewrite !Forall_forall. intros Hold Hstep c Hc.
  destruct (Hstep c Hc) as [[Hin Hids]|Hnew]; [|done].
  apply findBookById_is_Some.
  destruct (proj1 (findBookById_is_Some _ _) (Hold c Hin)) as (id & Hid & ?).
  eauto.
Qed.

Lemma elem_of_delete_other {A} (l : list A) i x y :
  x ∈ l → l !! i = Some y → x ≠ y → x ∈ delete i l.
Proof.
  intros [j Hj]%list_elem_of_lookup Hi Hne.
  assert (j ≠ i) by (intros ->; congruence).
  apply list_elem_of_lookup. destruct (decide (j < i)).
  - exists j. by rewrite list_lookup_delete_lt.
  - exists (pred j). rewrite list_lookup_delete_ge by lia.
    by replace (S (pred j)) with j by lia.
Qed.

Lemma elem_of_insert_inv {A} (l : list A) i x y :
  y ∈ <[i:=x]> l → y = x ∨ y ∈ l.
Proof.
  intros [j Hj]%list_elem_of_lookup.
  apply list_lookup_insert_Some in Hj as [(-> & -> & _)|[_ Hj]]; [by left|].
  right. by eapply list_elem_of_lookup_2.
Qed.

(** Every handler keeps the copies resolving. *)
Lemma exec_copiesResolve op s : copiesResolve s → copiesResolve (exec op s).
Proof.
  intros Hs. apply (copiesResolve_step s); [done|].
  destruct op as [k rnd req|k req|k req]; cbn [exec].
  - rewrite route_post_spec.
    destruct (validation k (body req) s) eqn:Hvalid; [by left..|].
    cbn [snd]. destruct k; cbn; try (by left).
    + intros c Hc. left. split; [done|]. intros id _ Hid.
      rewrite fmap_app. apply elem_of_app. by left.
    + intros c [Hc|Hc%list_elem_of_singleton]%elem_of_app; [by left|].
      right. subst c. cbn.
      apply validation_copy_Passes in Hvalid as (_ & Hbook & _).
      exact Hbook.
  - rewrite route_put_spec.
    destruct (validation k (body req) s) eqn:Hvalid; [by left..|].
    destruct k; cbn [bodyPartial storeUpdate].
    + unfold updateAuthor. destruct (list_find _ (authors s)) as [[??]|];
        cbn; by left.
    + unfold updateGenre. destruct (list_find _ (genres s)) as [[??]|];
        cbn; by left.
    + unfold updateBook.
      destruct (list_find _ (books s)) as [[i old]|] eqn:Hfind;
        cbn; [|by left].
      intros c Hc. left. split; [done|]. intros id _ Hid.
      apply list_find_Some in Hfind as (Hi & _).
      by rewrite (fmap_insert_keeps b_id _ _ old).
    + unfold updateBookCopy.
      destruct (list_find _ (bookCopies s)) as [[i old]|];
        cbn; [|by left].
      intros c [->|Hc]%elem_of_insert_inv; [|by left].
      right. cbn.
      apply validation_copy_Passes in Hvalid as (_ & Hbook & _).
      exact Hbook.
  - rewrite route_delete_spec. cbn [snd].
    destruct k; cbn [storeDelete].
    + unfold deleteAuthor. destruct (list_find _ (authors s)) as [[??]|];
        cbn; by left.
    + unfold deleteGenre. destruct (list_find _ (genres s)) as [[??]|];
        cbn; by left.
    + unfold deleteBook.
      destruct (list_find _ (books s)) as [[i old]|] eqn:Hfind;
        cbn; [|by left].
      intros c [Hkeep Hc]%list_elem_of_filter. left. split; [done|].
      intros id Hid Hin. rewrite list_fmap_delete.
      apply list_find_Some in Hfind as (Hi & Hold & _).
      apply (elem_of_delete_other _ _ _ (b_id old)); [done| |].
      * by rewrite list_lookup_fmap, Hi.
      * intros ->. apply Hkeep. unfold strictEq. congruence.
    + unfold deleteBookCopy.
      destruct (list_find _ (bookCopies s)) as [[i old]|];
        cbn; [|by left].
      intros c Hc%list_elem_of_delete_inv. by left.
Qed.

(** X12. Along every run of the handlers, with any random draws, every
    stored Copy keeps referencing a stored Book: if it is so at the
    start (the empty store, the sample store), it is so in every state
    reached. *)
Theorem copiesResolve_invariant (s0 s : Store) :
  copiesResolve s0 → reachable s0 s → copiesResolve s.
Proof.
  intros H0 Hreach. induction Hreach as [|s op _ IH]; [done|].
  by apply exec_copiesResolve.
Qed.

Lemma copiesResolve_invariant_witness :
  copiesResolve sampleStore
  ∧ reachable sampleStore (exec (Delete KBook (idRequest "book1")) sampleStore)
  ∧ copiesResolve (exec (Delete KBook (idRequest "book1")) sampleStore).
Proof.
  assert (H0 : copiesResolve sampleStore).
  { unfold copiesResolve. apply (bool_decide_unpack _). by vm_compute. }
  assert (Hr : reachable sampleStore
                 (exec (Delete KBook (idRequest "book1")) sampleStore))
    by (apply reachable_step, reachable_init).
  split; [exact H0|]. split; [exact Hr|].
  exact (copiesResolve_invariant _ _ H0 Hr).
Defined.

(** X13. The row that a successful Book create or update returns has
    non-empty arrays of author and genre ids, and each of these ids
    resolves in the store that the handler leaves. *)
Theorem written_book_resolves (rnd : string) (req : Request) (s s' : Store)
    (b : Book) :
  createBook rnd req s = (Json 201 b, s')
  ∨ updateBookById req s = (Json 200 b, s') →
  bookResolves b s'
  ∧ nonEmptyArray (authorIds b) = true
  ∧ nonEmptyArray (genreIds b) = true.
Proof.
  rewrite createBook_spec, updateBookById_spec.
  destruct (validation KBook (body req) s) eqn:Hvalid;
    [by intros [|]..|].
  apply validation_book_Passes in Hvalid as (_ & Ha & Hg & Has & Hgs).
  unfold bookResolves.
  intros [[= <- <-]|Hput]; [done|].
  unfold updateBook in Hput.
  destruct (list_find _ (books s)) as [[i old]|]; [|done].
  by injection Hput as <- <-.
Qed.

Lemma written_book_resolves_witness :
  (createBook "0.4fzyo82mvyr" (bookRequest "" "Dune") sampleStore
   = (Json 201
        {| b_id := "4fzyo82mv"; title := JStr "Dune";
           authorIds := JArr [JStr "auth1"]; genreIds := JArr [JStr "gen1"];
           isbn := JStr "1"; summary := JStr "s" |}, duneStore)
   ∨ updateBookById (bookRequest "" "Dune") sampleStore
     = (Json 200
          {| b_id := "4fzyo82mv"; title := JStr "Dune";
             authorIds := JArr [JStr "auth1"]; genreIds := JArr [JStr "gen1"];
             isbn := JStr "1"; summary := JStr "s" |}, duneStore))
  ∧ bookResolves
      {| b_id := "4fzyo82mv"; title := JStr "Dune";
         authorIds := JArr [JStr "auth1"]; genreIds := JArr [JStr "gen1"];
         isbn := JStr "1"; summary := JStr "s" |} duneStore.
Proof.
  assert (H : createBook "0.4fzyo82mvyr" (bookRequest "" "Dune") sampleStore
   = (Json 201
        {| b_id := "4fzyo82mv"; title := JStr "Dune";
           authorIds := JArr [JStr "auth1"]; genreIds := JArr [JStr "gen1"];
           isbn := JStr "1"; summary := JStr "s" |}, duneStore))
    by (vm_compute; reflexivity).
  split; [left; exact H|].
  exact (proj1 (written_book_resolves _ (bookRequest "" "Dune") _ _ _
                  (or_introl H))).
Defined.

(** X14. The row that a successful Copy create or update returns
    references a Book of the store that the handler leaves, and its
    status is one of the four status strings. *)
Theorem written_copy_resolves (rnd : string) (req : Request) (s s' : Store)
    (c : BookCopy) :
  createBookCopy rnd req s = (Json 201 c, s')
  ∨ updateBookCopyById req s = (Json 200 c, s') →
  is_Some (findBookById (bookId c) s')
  ∧ ∃ label, status c = JStr label ∧ label ∈ validStatuses.
Proof.
  rewrite createBookCopy_spec, updateBookCopyById_spec.
  destruct (validation KCopy (body req) s) eqn:Hvalid;
    [by intros [|]..|].
  apply validation_copy_Passes in Hvalid as (_ & Hbook & Hstatus).
  intros [[= <- <-]|Hput]; [done|].
  unfold updateBookCopy in Hput.
  destruct (list_find _ (bookCopies s)) as [[i old]|]; [|done].
  by injection Hput as <- <-.
Qed.

Lemma written_copy_resolves_witness :
  (createBookCopy "0.q9xk2l07cze" (copyRequest "" "book1" "checked out")
     sampleStore
   = (Json 201
        {| c_id := "q9xk2l07c"; bookId := JStr "book1"; imprint := JStr "i";
           status := JStr "checked out"; dueBackDate := JUndefined |},
      (createBookCopy "0.q9xk2l07cze"
         (copyRequest "" "book1" "checked out") sampleStore).2)
   ∨ updateBookCopyById (copyRequest "" "book1" "checked out") sampleStore
     = (Json 200
          {| c_id := "q9xk2l07c"; bookId := JStr "book1";
             imprint := JStr "i"; status := JStr "checked out";
             dueBackDate := JUndefined |},
        (createBookCopy "0.q9xk2l07cze"
           (copyRequest "" "book1" "checked out") sampleStore).2))
  ∧ is_Some
      (findBookById (JStr "book1")
         (createBookCopy "0.q9xk2l07cze"
            (copyRequest "" "book1" "checked out") sampleStore).2).
Proof.
  assert (H : createBookCopy "0.q9xk2l07cze"
                (copyRequest "" "book1" "checked out") sampleStore
   = (Json 201
        {| c_id := "q9xk2l07c"; bookId := JStr "book1"; imprint := JStr "i";
           status := JStr "checked out"; dueBackDate := JUndefined |},
      (createBookCopy "0.q9xk2l07cze"
         (copyRequest "" "book1" "checked out") sampleStore).2))
    by (vm_compute; reflexivity).
  split; [left; exact H|].
  exact (proj1 (written_copy_resolves _ _ _ _ _ (or_introl H))).
Defined.

(** X15. Deleting an Author does not look at the Books. A Book that
    lists the Author keeps its row and its author ids, which no longer
    resolve once the (unique) Author is gone; from then on the handlers
    reject that same list of author ids in a create or an update and
    leave the store as it is: with a 400 answer and a message, or with a
    throw after the status was set to 400; it is the answer with a
    message when all the author ids of the Book resolved before the
    delete. *)
Theorem deleteAuthor_dangling (a : string) (b : Book) (s : Store) :
  NoDup (a_id <$> authors s) →
  b ∈ books s →
  JStr a ∈ items (authorIds b) →
  b ∈ books (deleteAuthor a s).2
  ∧ findAuthorById (JStr a) (deleteAuthor a s).2 = None
  ∧ ¬ bookResolves b (deleteAuthor a s).2
  ∧ ∀ rnd req,
      field (body req) "authorIds" = authorIds b →
      ((∃ message,
          createBook rnd req (deleteAuthor a s).2
          = (Error 400 "Bad Request" message, (deleteAuthor a s).2))
       ∨ createBook rnd req (deleteAuthor a s).2
         = (Throws 400, (deleteAuthor a s).2))
      ∧ ((∃ message,
            updateBookById req (deleteAuthor a s).2
            = (Error 400 "Bad Request" message, (deleteAuthor a s).2))
         ∨ updateBookById req (deleteAuthor a s).2
           = (Throws 400, (deleteAuthor a s).2))
      ∧ (Forall (λ id, is_Some (findAuthorById id s)) (items (authorIds b)) →
         (∃ message,
            createBook rnd req (deleteAuthor a s).2
            = (Error 400 "Bad Request" message, (deleteAuthor a s).2))
         ∧ (∃ message,
              updateBookById req (deleteAuthor a s).2
              = (Error 400 "Bad Request" message, (deleteAuthor a s).2))).
Proof.
  intros Hnd Hb Ha.
  assert (Hbooks : books (deleteAuthor a s).2 = books s).
  { unfold deleteAuthor. by destruct (list_find _ (authors s)) as [[??]|]. }
  assert (Hgone : findAuthorById (JStr a) (deleteAuthor a s).2 = None).
  { unfold findAuthorById. rewrite find_strictEq. unfold deleteAuthor.
    destruct (list_find _ (authors s)) as [[i old]|] eqn:Hfind; cbn.
    - by rewrite (find_delete_NoDup a_id _ _ _ _ Hnd Hfind).
    - by rewrite Hfind. }
  assert (Hnot : ∀ v, JStr a ∈ items v →
            ¬ Forall (λ id, is_Some (findAuthorById id (deleteAuthor a s).2))
                (items v)).
  { intros v Hv Hall. eapply Forall_forall in Hall; [|exact Hv].
    rewrite Hgone in Hall. by destruct Hall. }
  split_and!.
  - by rewrite Hbooks.
  - done.
  - intros [Hall _]. by eapply Hnot.
  - intros rnd req Hreq.
    rewrite createBook_spec, updateBookById_spec.
    destruct (validation KBook (body req) _) eqn:Hvalid.
    + split_and!; eauto.
    + split_and!; [by right..|]. intros Hresolved. exfalso.
      apply validation_book_unprinted in Hvalid as [Hjoin|[Hnil _]].
      * assert (Hstr : ∃ ids,
          unresolved (λ id, findAuthorById id (deleteAuthor a s).2)
            (field (body req) "authorIds") = JStr <$> ids).
        { rewrite Hreq. unfold unresolved.
          generalize dependent (items (authorIds b)). clear.
          intros l _ Hresolved.
          induction Hresolved as [|x l Hx _ IH]; [by exists []|].
          destruct IH as [ids IH].
          apply findAuthorById_is_Some in Hx as (id & -> & _).
          rewrite filter_cons. case_decide.
          - exists (id :: ids). by rewrite IH.
          - by exists ids. }
        destruct Hstr as [ids Hstr].
        by rewrite Hstr, join_strings in Hjoin.
      * assert (Hin : JStr a ∈ unresolved
                  (λ id, findAuthorById id (deleteAuthor a s).2)
                  (field (body req) "authorIds")).
        { apply elem_of_unresolved. by rewrite Hreq. }
        rewrite Hnil in Hin. by apply elem_of_nil in Hin.
    + apply validation_book_Passes in Hvalid as (_ & _ & _ & Hall & _).
      rewrite Hreq in Hall. by eapply Hnot in Hall.
Qed.

Lemma deleteAuthor_dangling_witness :
  NoDup (a_id <$> authors sampleStore)
  ∧ foundation ∈ books sampleStore
  ∧ JStr "auth1" ∈ items (authorIds foundation)
  ∧ foundation ∈ books (deleteAuthor "auth1" sampleStore).2
  ∧ findAuthorById (JStr "auth1") (deleteAuthor "auth1" sampleStore).2 = None.
Proof.
  assert (H1 : NoDup (a_id <$> authors sampleStore))
    by (apply (bool_decide_unpack _); by vm_compute).
  assert (H2 : foundation ∈ books sampleStore)
    by (vm_compute; apply list_elem_of_here).
  assert (H3 : JStr "auth1" ∈ items (authorIds foundation))
    by (vm_compute; apply list_elem_of_here).
  split; [exact H1|]. split; [exact H2|]. split; [exact H3|].
  destruct (deleteAuthor_dangling "auth1" foundation sampleStore H1 H2 H3)
    as (Hkeep & Hgone & _).
  split; [exact Hkeep|exact Hgone].
Defined.

(** The throw does happen: in a store whose Book lists, next to the
    Author, an object with a [toString] key, that list of author ids
    makes create and update throw once the Author is deleted. *)
Example dangling_object_id_throws :
  let ids := JArr [JStr "auth1"; JObj [("toString", JStr "x")]] in
  let s :=
    set_books
      [{| b_id := "book1"; title := JStr "Foundation"; authorIds := ids;
          genreIds := JArr [JStr "gen1"]; isbn := JStr "1";
          summary := JStr "s" |}] sampleStore in
  let req :=
    {| params_id := "book1"; query := ∅;
       body := {[ "title" := JStr "X"; "authorIds" := ids;
                  "genreIds" := JArr [JStr "gen1"]; "isbn" := JStr "1";
                  "summary" := JStr "s" ]} |} in
  createBook "0.4fzyo82mvyr" req (deleteAuthor "auth1" s).2
  = (Throws 400, (deleteAuthor "auth1" s).2)
  ∧ updateBookById req (deleteAuthor "auth1" s).2
    = (Throws 400, (deleteAuthor "auth1" s).2).
Proof. split; by vm_compute. Qed.

(** ** Generated identifiers *)

Lemma length_substring n m s :
  String.length (String.substring n m s) = Nat.min m (String.length s - n).
Proof.
  revert n m.
  induction s as [|c s IH]; intros [|n] [|m]; cbn; rewrite ?IH; try lia.
  destruct (String.length s - n); cbn; lia.
Qed.

Lemma substring_prefix d r :
  String.substring 0 (String.length d) (d +:+ r) = d.
Proof.
  induction d as [|c d IH]; simpl; [by destruct r|].
  f_equal. exact IH.
Qed.

(** X16. A generated id has at most nine characters: as many as the
    rendering of the draw has after its first two, up to nine. For a
    draw rendered with at least nine digits after the point the id is
    the first nine of these digits. *)
Theorem generateId_length (rnd : string) :
  String.length (generateId rnd) = Nat.min 9 (String.length rnd - 2)
  ∧ ∀ digits rest,
      String.length digits = 9 →
      generateId ("0." +:+ digits +:+ rest) = digits.
Proof.
  split; [apply length_substring|].
  intros digits rest Hlen. unfold generateId. cbn.
  rewrite <- Hlen. apply substring_prefix.
Qed.

(** ** Listing the copies *)

Lemma filter_all {A} (P : A → Prop) `{∀ x, Decision (P x)} (l : list A) :
  (∀ x, P x) → filter P l = l.
Proof.
  intros HP. induction l as [|x l IH]; [done|].
  by rewrite filter_cons, decide_True, IH.
Qed.

Lemma two_filters {A} (P1 P2 Q : A → Prop) `{!∀ x, Decision (P1 x),
    !∀ x, Decision (P2 x), !∀ x, Decision (Q x)} (b1 b2 : bool)
    (l : list A) :
  (∀ x, Q x ↔ (b1 = true → P1 x) ∧ (b2 = true → P2 x)) →
  (if b2 then filter P2 (if b1 then filter P1 l else l)
   else if b1 then filter P1 l else l)
  = filter Q l.
Proof.
  intros HQ. destruct b1, b2.
  - rewrite list_filter_filter. apply list_filter_iff. intros x.
    rewrite HQ. tauto.
  - apply list_filter_iff. intros x. rewrite HQ.
    split; [by intros ?; split|]. intros [Hx _]. by apply Hx.
  - apply list_filter_iff. intros x. rewrite HQ.
    split; [by intros ?; split|]. intros [_ Hx]. by apply Hx.
  - symmetry. apply filter_all. intros x. rewrite HQ. by split.
Qed.

(** X17. The list of the copies is the Copies table filtered, in table
    order, by the query: a copy is listed when its bookId is the
    [bookId] of the query (if the query has a non-empty one) and its
    status is the [status] of the query (if it has a non-empty one).
    Without a query the whole table is listed. *)
Theorem getAllBookCopies_filter (req : Request) (s : Store) :
  getAllBookCopies req s
  = Json 200 (filter (matchesQuery (query req)) (bookCopies s))
  ∧ (∀ p o,
       getAllBookCopies {| params_id := p; query := ∅; body := o |} s
       = Json 200 (bookCopies s))
  ∧ ∀ (book label : string) (copy : BookCopy),
      book ≠ "" → label ≠ "" →
      matchesQuery {[ "bookId" := JStr book; "status" := JStr label ]} copy
      ↔ bookId copy = JStr book ∧ status copy = JStr label.
Proof.
  assert (Hmain : ∀ r, getAllBookCopies r s
            = Json 200 (filter (matchesQuery (query r)) (bookCopies s))).
  { intros r. unfold getAllBookCopies. f_equal.
    by apply two_filters. }
  split; [apply Hmain|]. split.
  - intros p o. rewrite Hmain. cbn [query]. f_equal. apply filter_all.
    intros c. unfold matchesQuery, field. rewrite !lookup_empty. by split.
  - intros book label copy Hb Hl. unfold matchesQuery, field.
    rewrite lookup_insert_eq.
    rewrite lookup_insert_ne, lookup_singleton_eq by done. cbn.
    assert (Htb : negb (String.eqb book "") = true).
    { apply negb_true_iff. by apply String.eqb_neq. }
    assert (Htl : negb (String.eqb label "") = true).
    { apply negb_true_iff. by apply String.eqb_neq. }
    unfold strictEq. rewrite Htb, Htl. tauto.
Qed.

(** ** The message for ids that do not resolve *)

Lemma unresolved_strings (ids : list string) s :
  unresolved (λ id, findAuthorById id s) (JArr (JStr <$> ids))
  = JStr <$> filter (λ id, id ∉ a_id <$> authors s) ids.
Proof.
  unfold unresolved. cbn [items].
  induction ids as [|id ids IH]; [done|].
  rewrite fmap_cons, !filter_cons, IH.
  assert (Hiff : findAuthorById (JStr id) s = None
                 ↔ id ∉ a_id <$> authors s).
  { rewrite eq_None_not_Some, findAuthorById_is_Some. split.
    - intros Hnone Hin. apply Hnone. eauto.
    - intros Hnotin (? & [= <-] & ?). done. }
  destruct (decide (findAuthorById (JStr id) s = None)) as [Hn|Hn],
    (decide (id ∉ a_id <$> authors s)) as [Hi|Hi]; try done.
  - by apply Hiff in Hn.
  - by apply Hiff in Hi.
Qed.

(** X18. When the required fields are truthy, genreIds is a non-empty
    array and authorIds is an array of strings some of which are the id
    of no stored Author, create and update answer 400 with the message
    made of [Invalid author IDs: ] and of exactly those strings, in the
    order of the array, separated by a comma and a space; the store is
    left as it is. *)
Theorem invalid_author_message (rnd : string) (req : Request) (s : Store)
    (ids : list string) :
  Forall (λ key, truthy (field (body req) key) = true)
    ["title"; "authorIds"; "genreIds"; "isbn"; "summary"] →
  (∃ x l, field (body req) "genreIds" = JArr (x :: l)) →
  field (body req) "authorIds" = JArr (JStr <$> ids) →
  filter (λ id, id ∉ a_id <$> authors s) ids ≠ [] →
  createBook rnd req s
  = (Error 400 "Bad Request"
       ("Invalid author IDs: "
        +:+ String.concat ", "
              (filter (λ id, id ∉ a_id <$> authors s) ids)), s)
  ∧ updateBookById req s
    = (Error 400 "Bad Request"
         ("Invalid author IDs: "
          +:+ String.concat ", "
                (filter (λ id, id ∉ a_id <$> authors s) ids)), s).
Proof.
  intros Hreq Hgenres Hauthors Hbad.
  assert (Hvalid : validation KBook (body req) s
    = Fails ("Invalid author IDs: "
             +:+ String.concat ", "
                   (filter (λ id, id ∉ a_id <$> authors s) ids))).
  { unfold validation. cbn [checks firstVerdict checkVerdict].
    rewrite (proj2 (checkError_required KBook (body req) s) Hreq).
    destruct (checkError_shape KBook (body req) s) as [Hsa Hsg].
    rewrite (proj2 Hsg Hgenres).
    assert (Hne : ∃ x l, field (body req) "authorIds" = JArr (x :: l)).
    { rewrite Hauthors. destruct ids as [|id ids]; [done|].
      by exists (JStr id), (JStr <$> ids). }
    rewrite (proj2 Hsa Hne).
    rewrite Hauthors, unresolved_strings. unfold listing.
    rewrite join_strings. by destruct (filter _ ids). }
  by rewrite createBook_spec, updateBookById_spec, Hvalid.
Qed.

Lemma invalid_author_message_witness :
  createBook "0.4fzyo82mvyr"
    {| params_id := ""; query := ∅;
       body := {[ "title" := JStr "X";
                  "authorIds" := JArr (JStr <$> ["a9"; "auth1"; "b7"]);
                  "genreIds" := JArr [JStr "gen1"]; "isbn" := JStr "1";
                  "summary" := JStr "s" ]} |} sampleStore
  = (Error 400 "Bad Request" "Invalid author IDs: a9, b7", sampleStore).
Proof.
  destruct (invalid_author_message "0.4fzyo82mvyr"
    {| params_id := ""; query := ∅;
       body := {[ "title" := JStr "X";
                  "authorIds" := JArr (JStr <$> ["a9"; "auth1"; "b7"]);
                  "genreIds" := JArr [JStr "gen1"]; "isbn" := JStr "1";
                  "summary" := JStr "s" ]} |} sampleStore
    ["a9"; "auth1"; "b7"]) as [Hc _].
  - repeat constructor.
  - by eexists _, _.
  - reflexivity.
  - by vm_compute.
  - rewrite Hc. by vm_compute.
Defined.

(** ** The sample data *)

(** X19. Seeding any store appends two Authors, two Genres, one Book and
    one Copy after the rows that are there, which it leaves as they are.
    The Copies keep referencing stored Books if they did, and every
    seeded Book resolves. Seeding the empty store gives unique ids. *)
Theorem initializeData_seeds (s : Store) :
  (∀ k, table k s `prefix_of` table k (initializeData s))
  ∧ length (authors (initializeData s)) = length (authors s) + 2
  ∧ length (genres (initializeData s)) = length (genres s) + 2
  ∧ length (books (initializeData s)) = length (books s) + 1
  ∧ length (bookCopies (initializeData s)) = length (bookCopies s) + 1
  ∧ (copiesResolve s → copiesResolve (initializeData s))
  ∧ (∀ b, b ∈ books (initializeData s) →
          b ∈ books s ∨ bookResolves b (initializeData s))
  ∧ uniqueIds (initializeData emptyStore).
Proof.
  assert (Hb : books (initializeData s) = books s ++ [foundation])
    by reflexivity.
  assert (Ha : ∃ a2, authors (initializeData s)
                     = authors s
                       ++ [{| a_id := "auth1"; firstName := JStr "Isaac";
                              lastName := JStr "Asimov";
                              birthDate := JStr "1920-01-02";
                              deathDate := JStr "1992-04-06" |}; a2])
    by (eexists; cbn; by rewrite <- (assoc_L (++))).
  assert (Hg : ∃ g2, genres (initializeData s)
                     = genres s
                       ++ [{| g_id := "gen1";
                              name := JStr "Science Fiction" |}; g2])
    by (eexists; cbn; by rewrite <- (assoc_L (++))).
  assert (Hc : ∃ copy1, bookCopies (initializeData s)
                        = bookCopies s ++ [copy1]
                        ∧ bookId copy1 = JStr "book1")
    by (by eexists).
  destruct Ha as [a2 Ha], Hg as [g2 Hg], Hc as (copy1 & Hc & Hcopy1).
  split_and!.
  - intros []; cbn [table]; rewrite ?Ha, ?Hg, ?Hb, ?Hc, fmap_app;
      by apply prefix_app_r.
  - rewrite Ha, length_app. cbn. lia.
  - rewrite Hg, length_app. cbn. lia.
  - rewrite Hb, length_app. cbn. lia.
  - rewrite Hc, length_app. cbn. lia.
  - intros Hs. apply (copiesResolve_step s); [done|].
    rewrite Hc, Hb. intros c [Hin|Hin%list_elem_of_singleton]%elem_of_app.
    + left. split; [done|]. intros id _ Hid.
      rewrite fmap_app. apply elem_of_app. by left.
    + right. subst c. apply findBookById_is_Some. exists "book1".
      split; [done|]. rewrite Hb, fmap_app. apply elem_of_app. right.
      apply list_elem_of_here.
  - rewrite Hb. intros b [Hin|Hin%list_elem_of_singleton]%elem_of_app;
      [by left|].
    right. subst b. split; apply Forall_singleton.
    + apply findAuthorById_is_Some. exists "auth1". split; [done|].
      rewrite Ha, fmap_app. apply elem_of_app. right.
      apply list_elem_of_here.
    + apply findGenreById_is_Some. exists "gen1". split; [done|].
      rewrite Hg, fmap_app. apply elem_of_app. right.
      apply list_elem_of_here.
  - apply uniqueIds_sampleStore.
Qed.

(** ** Answers and the store *)

(** X20. After a delete that answered 204, a get of the same id answers
    404, provided no two rows of the table shared an id. *)
Theorem get_after_delete (k : Kind) (req : Request) (s s' : Store) :
  NoDup (entityId <$> table k s) →
  route_delete k req s = (Send 204, s') →
  route_get k req s' = Error 404 "Not Found" (notFoundMessage k).
Proof.
  intros Hnd. rewrite route_delete_spec.
  pose proof (storeDelete_spec k (params_id req) s) as Hspec.
  destruct (firstIndex k (params_id req) s) as [[i old]|] eqn:Hidx.
  - destruct Hspec as (s1 & -> & Htab & _). intros [= <-].
    rewrite route_get_firstIndex. unfold firstIndex in *. rewrite Htab.
    by rewrite (find_delete_NoDup entityId _ _ _ _ Hnd Hidx).
  - by rewrite Hspec.
Qed.

Lemma get_after_delete_witness :
  NoDup (entityId <$> table KCopy sampleStore)
  ∧ route_delete KCopy (idRequest "copy1") sampleStore
    = (Send 204, (route_delete KCopy (idRequest "copy1") sampleStore).2)
  ∧ route_get KCopy (idRequest "copy1")
      (route_delete KCopy (idRequest "copy1") sampleStore).2
    = Error 404 "Not Found" "Book copy not found".
Proof.
  assert (H1 : NoDup (entityId <$> table KCopy sampleStore))
    by (apply (bool_decide_unpack _); by vm_compute).
  assert (H2 : route_delete KCopy (idRequest "copy1") sampleStore
    = (Send 204, (route_delete KCopy (idRequest "copy1") sampleStore).2))
    by (vm_compute; reflexivity).
  split; [exact H1|]. split; [exact H2|].
  exact (get_after_delete _ _ _ _ H1 H2).
Defined.

(** X21. The handlers end in a fixed set of ways, and a request that is
    not answered with a success leaves the store as it is: a create
    answers 201 or 400, an update 200, 400 or 404, a delete 204 or 404,
    and a Book create or update may also throw after the status was set
    to 400 (no other handler throws); only the 201, 200 and 204 answers
    come with a changed store. *)
Theorem errors_leave_store (k : Kind) (rnd : string) (req : Request)
    (s : Store) :
  ((∃ e, (route_post k rnd req s).1 = Json 201 e)
   ∨ (∃ message, route_post k rnd req s
                 = (Error 400 "Bad Request" message, s))
   ∨ (k = KBook ∧ route_post k rnd req s = (Throws 400, s)))
  ∧ ((∃ e, (route_put k req s).1 = Json 200 e)
     ∨ (∃ message, route_put k req s
                   = (Error 400 "Bad Request" message, s))
     ∨ route_put k req s = (Error 404 "Not Found" (notFoundMessage k), s)
     ∨ (k = KBook ∧ route_put k req s = (Throws 400, s)))
  ∧ ((route_delete k req s).1 = Send 204
     ∨ route_delete k req s = (Error 404 "Not Found" (notFoundMessage k), s)).
Proof.
  split_and!.
  - rewrite route_post_spec.
    destruct (validation _ _ _) eqn:Hvalid; eauto.
    do 2 right. split; [by eapply validation_unprinted|done].
  - rewrite route_put_spec.
    destruct (validation _ _ _) eqn:Hvalid; [eauto| |].
    { do 3 right. split; [by eapply validation_unprinted|done]. }
    pose proof (storeUpdate_spec (params_id req) (bodyPartial k (body req)) s)
      as Hspec.
    destruct (firstIndex _ _ _) as [[i old]|].
    + destruct Hspec as (s' & -> & _). eauto.
    + rewrite Hspec. eauto.
  - rewrite route_delete_spec.
    pose proof (storeDelete_spec k (params_id req) s) as Hspec.
    destruct (firstIndex _ _ _) as [[i old]|].
    + destruct Hspec as (s' & -> & _). by left.
    + rewrite Hspec. by right.
Qed.

(** ** The order of the Book checks *)





